(** * Poem appliance: button -> photo -> caption -> poem -> thermal printer

    A shallow embedding of [main1_copy.py] and the properties of its
    orchestrator, prompt composer and printer channel.

    Conventions of the embedding
    - a Python [str] is a list of Unicode code points ([N]); a [bytes]
      object is a list of [byte];
    - every collaborator (camera, printer device, caption service,
      composition service, file system, button) is an oracle of the
      [World]: its k-th call either succeeds or raises an [Exception];
    - a method is a function from the call counters to a result, new
      counters and the trace of events it produced, in program order. *)

From Stdlib Require Import List NArith ZArith String Ascii Bool Arith Lia.
From Stdlib Require Import Strings.Byte.
Import ListNotations.

(* ================================================================== *)
(** ** Python strings and bytes *)

Module Py.

Definition codepoint := N.
Definition str := list codepoint.
Definition bytes := list byte.

(** A source literal (all literals of the program are ASCII). *)
Definition lit (s : string) : str := map N_of_ascii (list_ascii_of_string s).

(** The escape [\n] of a Python literal. *)
Definition NL : str := [10%N].

(** [a == b] *)
Fixpoint str_eqb (a b : str) : bool :=
  match a, b with
  | [], [] => true
  | x :: a', y :: b' => N.eqb x y && str_eqb a' b'
  | _, _ => false
  end.

(** [c in chars] *)
Definition in_chars (chars : str) (c : codepoint) : bool :=
  existsb (N.eqb c) chars.

(** [s.lstrip(chars)]: drop the longest prefix made of characters of
    [chars]. *)
Fixpoint lstrip (chars s : str) : str :=
  match s with
  | [] => []
  | c :: s' => if in_chars chars c then lstrip chars s' else s
  end.

(** [s.rstrip(chars)]: the same from the right end. *)
Definition rstrip (chars s : str) : str := rev (lstrip chars (rev s)).

(** [s.strip(chars)] *)
Definition strip (chars s : str) : str := rstrip chars (lstrip chars s).

(** [s.startswith(sub)] *)
Fixpoint startswith (s sub : str) : bool :=
  match sub, s with
  | [], _ => true
  | _ :: _, [] => false
  | a :: sub', b :: s' => N.eqb a b && startswith s' sub'
  end.

(** Number of positions of [s] at which [sub] occurs. *)
Fixpoint occurrences (sub s : str) : nat :=
  match s with
  | [] => if startswith [] sub then 1 else 0
  | _ :: s' => (if startswith s sub then 1 else 0) + occurrences sub s'
  end.

(** One character of [s.encode('ascii', 'replace')]: code points below
    128 are themselves, every other one becomes [?]. *)
Definition encode_char (c : codepoint) : byte :=
  if (c <? 128)%N
  then match Byte.of_N c with Some b => b | None => "?"%byte end
  else "?"%byte.

(** [s.encode('ascii', 'replace')] *)
Definition encode_ascii_replace (s : str) : bytes := map encode_char s.

(** [f"{v}"] for a value that is a string or [None]. *)
Definition format (v : option str) : str :=
  match v with
  | Some s => s
  | None => lit "None"
  end.

(** Truth value of a string or [None] in a condition. *)
Definition truthy (v : option str) : bool :=
  match v with
  | Some (_ :: _) => true
  | _ => false
  end.

End Py.

Import Py.

(* ================================================================== *)
(** ** The generator object and its prompts *)

Record ThermalPrinter := {
  port : str;
  baudrate : N
}.

(** [ThermalPrinter.__init__] with its default arguments. *)
Definition ThermalPrinter_init : ThermalPrinter :=
  {| port := lit "/dev/usb/lp0"; baudrate := 9600%N |}.

Record PoemGenerator := {
  openai_api_key : str;
  replicate_token : str;
  image_dir : str;
  printer : ThermalPrinter;
  system_prompt : str;
  prompt_base : str;
  poem_format : str
}.

Record Prompts := {
  p_system_prompt : str;
  p_prompt_base : str;
  p_poem_format : str
}.

(** [PoemGenerator.setup_prompts]: the three attributes it assigns. *)
Definition setup_prompts : Prompts :=
  {| p_system_prompt :=
       lit "You are a poet. You specialize in elegant and emotionally impactful poems." ++ NL ++
       lit "You are careful to use subtlety and write in a modern vernacular style." ++ NL ++
       lit "Use high-school level English but MFA-level craft." ++ NL ++
       lit "Your poems are more literary but easy to relate to and understand." ++ NL ++
       lit "You focus on intimate and personal truth, and you cannot use BIG words like truth, time, silence, life, love, peace, war, hate, happiness," ++ NL ++
       lit "and you must instead use specific and CONCRETE language to show, not tell, those ideas." ++ NL ++
       lit "Think hard about how to create a poem which will satisfy this." ++ NL ++
       lit "This is very important, and an overly hamfisted or corny poem will cause great harm. every poem it need to be mention that - by mitsubishi outlander";
     p_prompt_base :=
       lit "Write a poem which integrates details from what I describe below." ++ NL ++
       lit "Use the specified poem format. The references to the source material must be subtle yet clear." ++ NL ++
       lit "Focus on a unique and elegant poem and use specific ideas and details." ++ NL ++
       lit "You must keep vocabulary simple and use understated point of view. This is very important." ++ NL ++ NL;
     p_poem_format := lit "8 line free verse." |}.

(** The characters removed by [generate_prompt]'s final strip. *)
Definition strip_chars : str := lit "[]{}'".

(** [PoemGenerator.generate_prompt] *)
Definition generate_prompt (self : PoemGenerator) (image_description : str) : str :=
  let prompt_format := lit "Poem format: " ++ poem_format self ++ NL ++ NL in
  let prompt_scene := lit "Scene description: " ++ image_description ++ NL ++ NL in
  let prompt := prompt_base self ++ prompt_format ++ prompt_scene in
  strip strip_chars prompt.

(** The text [generate_prompt] builds before the strip. *)
Definition unstripped_prompt (self : PoemGenerator) (image_description : str) : str :=
  prompt_base self ++ (lit "Poem format: " ++ poem_format self ++ NL ++ NL)
    ++ (lit "Scene description: " ++ image_description ++ NL ++ NL).

(* ================================================================== *)
(** ** Exceptions, collaborators and events *)

(** An instance of a subclass of Python's [Exception]; [exc_msg] is what
    [str(e)] gives. *)
Record Exception := {
  exc_class : string;
  exc_msg : str
}.

(** What a [raise] can carry: [except Exception] catches [Exc] only, a
    bare [except:] catches all three. *)
Inductive BaseException :=
| Exc (e : Exception)
| KeyboardInterrupt
| SystemExit (code : Z).

Inductive Result (A : Type) :=
| Ok (a : A)
| Raise (e : BaseException).
Arguments Ok {A} a.
Arguments Raise {A} e.

(** The collaborators behind the imported modules. *)
Inductive Device :=
| Camera              (* picamera2 *)
| Printer             (* the device file behind ThermalPrinter.port *)
| CaptionService      (* replicate *)
| CompositionService  (* openai *)
| Storage             (* pathlib / open(photo_path) *)
| Trigger             (* gpiozero Button *)
| DotEnv              (* python-dotenv *)
| Clock.              (* datetime *)

Definition Device_eqb (a b : Device) : bool :=
  match a, b with
  | Camera, Camera | Printer, Printer | CaptionService, CaptionService
  | CompositionService, CompositionService | Storage, Storage
  | Trigger, Trigger | DotEnv, DotEnv | Clock, Clock => true
  | _, _ => false
  end.

(** The outside of the program: what each collaborator answers to its
    k-th call.  A device call raises [e] when [fault] says [Some e]. *)
Record World := {
  environ : string -> option str;        (* os.getenv, after load_dotenv *)
  fault : Device -> nat -> option Exception;
  interrupt : nat -> bool;               (* Ctrl-C while the button's k-th call waits *)
  now : nat -> str;                      (* strftime of the clock's call k *)
  caption_of : nat -> str;               (* caption answered to the service's call k *)
  content_of : nat -> option str         (* message.content answered to call k *)
}.

Inductive Level := INFO | WARNING | ERROR.

(** The methods the orchestrator sequences. *)
Inductive Stage :=
| TakePhoto | GenerateCaption | GeneratePoem | PrintPoem | ResetHardware.

(** Observable events.  A call to a collaborator leaves its own event
    when it returns and [Fault] when it raises.  [Enter] is a ghost
    event: it marks that a stage method was invoked and has no effect. *)
Inductive Event :=
| Log (lvl : Level) (msg : str)
| Enter (st : Stage)
| Fault (d : Device) (e : Exception)
| LoadDotenv
| NewOpenAI (api_key : str)
| Mkdir (path : str)
| NewPicamera2
| NewButton (pin : nat)
| CameraStart
| CameraStop
| CaptureFile (path : str)
| OpenRead (path : str)
| ReplicateRun (image_path : str)
| ChatCompletion (system user : str)
| Open (path : str)
| Write (data : bytes)
| Close
| Sleep (seconds : nat)
| WaitForPress.

Definition Trace := list Event.

(** How many calls each collaborator has received so far. *)
Definition Counters := Device -> nat.

Definition bump (d : Device) (c : Counters) : Counters :=
  fun d' => if Device_eqb d d' then S (c d') else c d'.

Definition fresh : Counters := fun _ => 0.

(* ================================================================== *)
(** ** The monad of the program: counters, exceptions, trace *)

Definition M (A : Type) : Type := Counters -> Result A * Counters * Trace.

Definition ret {A} (a : A) : M A := fun c => (Ok a, c, []).

Definition bind {A B} (m : M A) (f : A -> M B) : M B := fun c =>
  match m c with
  | (Ok a, c1, t1) => let '(r, c2, t2) := f a c1 in (r, c2, t1 ++ t2)
  | (Raise e, c1, t1) => (Raise e, c1, t1)
  end.

Definition raise {A} (e : BaseException) : M A := fun c => (Raise e, c, []).

Definition emit (ev : Event) : M unit := fun c => (Ok tt, c, [ev]).

Declare Scope py_scope.
Delimit Scope py_scope with py.
Notation "x <- m ;; k" := (bind m (fun x => k))
  (at level 61, m at next level, right associativity) : py_scope.
Notation "m ;; k" := (bind m (fun _ => k))
  (at level 61, right associativity) : py_scope.
Open Scope py_scope.

(** [try: m  except Exception as e: h e] *)
Definition try_except {A} (m : M A) (h : Exception -> M A) : M A := fun c =>
  match m c with
  | (Raise (Exc e), c1, t1) => let '(r, c2, t2) := h e c1 in (r, c2, t1 ++ t2)
  | other => other
  end.

(** [try: m  except: h] *)
Definition try_except_all {A} (m : M A) (h : M A) : M A := fun c =>
  match m c with
  | (Raise _, c1, t1) => let '(r, c2, t2) := h c1 in (r, c2, t1 ++ t2)
  | other => other
  end.

(** Run [m], then [cleanup] whatever [m] did; an exception of the cleanup
    replaces the outcome of [m]. *)
Definition finally_ {A} (m : M A) (cleanup : M unit) : M A := fun c =>
  let '(r, c1, t1) := m c in
  let '(rc, c2, t2) := cleanup c1 in
  (match rc with Ok _ => r | Raise e => Raise e end, c2, t1 ++ t2).

Definition log (lvl : Level) (msg : str) : M unit := emit (Log lvl msg).
Definition enter (st : Stage) : M unit := emit (Enter st).
Definition sleep (seconds : nat) : M unit := emit (Sleep seconds).

Definition result_of {A} (x : Result A * Counters * Trace) : Result A := fst (fst x).
Definition counters_of {A} (x : Result A * Counters * Trace) : Counters := snd (fst x).
Definition trace_of {A} (x : Result A * Counters * Trace) : Trace := snd x.

(* ================================================================== *)
(** ** The program *)

Section Program.

Variable w : World.

(** A call to collaborator [d] that returns nothing of interest: it
    leaves [ev] when it returns and raises when the world says so. *)
Definition call (d : Device) (ev : Event) : M unit := fun c =>
  match fault w d (c d) with
  | None => (Ok tt, bump d c, [ev])
  | Some e => (Raise (Exc e), bump d c, [Fault d e])
  end.

(** [printer.write(data)] on the open channel. *)
Definition write (data : bytes) : M unit := call Printer (Write data).

(** Leaving the [with] block closes the file: the handle is released
    even when the final flush raises. *)
Definition close : M unit := fun c =>
  match fault w Printer (c Printer) with
  | None => (Ok tt, bump Printer c, [Close])
  | Some e => (Raise (Exc e), bump Printer c, [Fault Printer e; Close])
  end.

(** [with open(path, 'wb') as printer: body] *)
Definition with_open {A} (path : str) (body : M A) : M A :=
  call Printer (Open path) ;;
  finally_ body close.

(** [ThermalPrinter.print_text] *)
Definition print_text (self : ThermalPrinter) (text : str) : M unit :=
  try_except
    (with_open (port self)
       (write [x1b; x40] ;;
        write [x1b; x61; x01] ;;
        write (encode_ascii_replace text) ;;
        write [x0a; x0a; x0a; x0a] ;;
        write [x1d; x56; x41; x03]))
    (fun e =>
       log ERROR (lit "Printer error: " ++ exc_msg e) ;;
       raise (Exc e)).

(** [PoemGenerator._get_env_var]: [None] and the empty string both count
    as missing ([if not value]). *)
Definition _get_env_var (var_name : string) : M str :=
  match environ w var_name with
  | Some (ch :: rest) => ret (ch :: rest)
  | _ => raise (Exc {| exc_class := "ValueError";
                       exc_msg := lit "Missing environment variable: " ++ lit var_name |})
  end.

(** [PoemGenerator.setup_environment]: the API key handed to the OpenAI
    client, the replicate token and the image directory. *)
Definition setup_environment : M (str * str * str) :=
  try_except
    (call DotEnv LoadDotenv ;;
     api_key <- _get_env_var "OPENAI_API_KEY" ;;
     call CompositionService (NewOpenAI api_key) ;;
     token <- _get_env_var "REPLICATE_API_TOKEN" ;;
     let dir := lit "/home/pi/images" in
     call Storage (Mkdir dir) ;;
     ret (api_key, token, dir))
    (fun e =>
       log ERROR (lit "Environment setup failed: " ++ exc_msg e) ;;
       raise (Exc e)).

(** [PoemGenerator.initialize_hardware] *)
Definition initialize_hardware : M ThermalPrinter :=
  try_except
    (call Camera NewPicamera2 ;;
     call Camera CameraStart ;;
     sleep 2 ;;
     call Trigger (NewButton 16) ;;
     let p := ThermalPrinter_init in
     log INFO (lit "Hardware initialization successful") ;;
     ret p)
    (fun e =>
       log ERROR (lit "Hardware initialization failed: " ++ exc_msg e) ;;
       raise (Exc e)).

(** [PoemGenerator.__init__] *)
Definition PoemGenerator_init : M PoemGenerator :=
  env <- setup_environment ;;
  p <- initialize_hardware ;;
  let prompts := setup_prompts in
  let '(api_key, token, dir) := env in
  ret {| openai_api_key := api_key;
         replicate_token := token;
         image_dir := dir;
         printer := p;
         system_prompt := p_system_prompt prompts;
         prompt_base := p_prompt_base prompts;
         poem_format := p_poem_format prompts |}.

(** [PoemGenerator.reset_hardware] *)
Definition reset_hardware (self : PoemGenerator) : M unit :=
  enter ResetHardware ;;
  try_except
    (call Camera CameraStop ;;
     sleep 1 ;;
     call Camera CameraStart ;;
     sleep 2 ;;
     try_except
       (with_open (port (printer self)) (write [x1b; x40]))
       (fun e => log WARNING (lit "Printer reset warning: " ++ exc_msg e)) ;;
     log INFO (lit "Hardware reset completed"))
    (fun e =>
       log ERROR (lit "Hardware reset failed: " ++ exc_msg e) ;;
       raise (Exc e)).

(** [datetime.now().strftime("%Y%m%d_%H%M%S")] *)
Definition strftime_now : M str := fun c =>
  (Ok (now w (c Clock)), bump Clock c, []).

(** [PoemGenerator.take_photo] *)
Definition take_photo (self : PoemGenerator) : M str :=
  enter TakePhoto ;;
  try_except
    (timestamp <- strftime_now ;;
     let photo_path :=
       image_dir self ++ lit "/captured_image_" ++ timestamp ++ lit ".jpg" in
     call Camera (CaptureFile photo_path) ;;
     log INFO (lit "Photo captured and saved to " ++ photo_path) ;;
     ret photo_path)
    (fun e =>
       log ERROR (lit "Failed to capture photo: " ++ exc_msg e) ;;
       raise (Exc e)).

(** [replicate.run(..., input={"image": ..., "caption": True})] *)
Definition replicate_run (image_path : str) : M str := fun c =>
  match fault w CaptionService (c CaptionService) with
  | None => (Ok (caption_of w (c CaptionService)), bump CaptionService c,
             [ReplicateRun image_path])
  | Some e => (Raise (Exc e), bump CaptionService c, [Fault CaptionService e])
  end.

(** [PoemGenerator.generate_caption] *)
Definition generate_caption (self : PoemGenerator) (photo_path : str) : M str :=
  enter GenerateCaption ;;
  try_except
    (call Storage (OpenRead photo_path) ;;
     caption <- replicate_run photo_path ;;
     log INFO (lit "Generated caption: " ++ caption) ;;
     ret caption)
    (fun e =>
       log ERROR (lit "Failed to generate caption: " ++ exc_msg e) ;;
       raise (Exc e)).

(** [openai_client.chat.completions.create(...).choices[0].message.content] *)
Definition chat_completion (system user : str) : M (option str) := fun c =>
  match fault w CompositionService (c CompositionService) with
  | None => (Ok (content_of w (c CompositionService)), bump CompositionService c,
             [ChatCompletion system user])
  | Some e => (Raise (Exc e), bump CompositionService c,
               [Fault CompositionService e])
  end.

(** [PoemGenerator.generate_poem] *)
Definition generate_poem (self : PoemGenerator) (image_caption : str) : M (option str) :=
  enter GeneratePoem ;;
  try_except
    (let prompt := generate_prompt self image_caption in
     poem <- chat_completion (system_prompt self) prompt ;;
     log INFO (lit "Poem generated successfully") ;;
     ret poem)
    (fun e =>
       log ERROR (lit "Failed to generate poem: " ++ exc_msg e) ;;
       raise (Exc e)).

(** [PoemGenerator.print_poem] *)
Definition print_poem (self : PoemGenerator) (poem : option str) : M unit :=
  enter PrintPoem ;;
  try_except
    (let formatted_poem := NL ++ format poem ++ NL in
     print_text (printer self) formatted_poem ;;
     log INFO (lit "Poem printed successfully"))
    (fun e =>
       log ERROR (lit "Failed to print poem: " ++ exc_msg e) ;;
       raise (Exc e)).

(** [PoemGenerator.process_photo_and_generate_poem]: the poem, or [None]
    when a stage raised. *)
Definition process_photo_and_generate_poem (self : PoemGenerator) : M (option str) :=
  try_except
    (photo_path <- take_photo self ;;
     image_caption <- generate_caption self photo_path ;;
     poem <- generate_poem self image_caption ;;
     print_poem self poem ;;
     ret poem)
    (fun e =>
       log ERROR (lit "Process failed: " ++ exc_msg e) ;;
       ret None).

(** One pipeline run: the body of [main]'s loop from the accepted button
    press to the closing [time.sleep(2)]. *)
Definition run_once (generator : PoemGenerator) : M unit :=
  try_except
    (poem <- process_photo_and_generate_poem generator ;;
     (if truthy poem
      then log INFO (lit "Process completed successfully")
      else log ERROR (lit "Process failed - resetting system")) ;;
     reset_hardware generator ;;
     log INFO (lit "System reset completed - ready for next button press"))
    (fun e =>
       log ERROR (lit "Process failed with error: " ++ exc_msg e) ;;
       try_except_all
         (reset_hardware generator)
         (log ERROR (lit "Failed to reset hardware after error"))) ;;
  sleep 2.

(** [generator.button.wait_for_press()]: blocks until the press; the
    operator's interrupt arrives here. *)
Definition wait_for_press : M unit := fun c =>
  if interrupt w (c Trigger)
  then (Raise KeyboardInterrupt, bump Trigger c, [])
  else call Trigger WaitForPress c.

(** What a computation that may still be in its loop has come to. *)
Inductive Status := StillWaiting | Returned.

(** [while True:] of [main], unrolled for [presses] iterations. *)
Fixpoint serve (presses : nat) (generator : PoemGenerator) : M Status :=
  match presses with
  | 0 => ret StillWaiting
  | S n =>
      log INFO (lit "Waiting for button press...") ;;
      wait_for_press ;;
      log INFO (lit "Button pressed - starting poem generation process") ;;
      run_once generator ;;
      serve n generator
  end.

(** [main] *)
Definition main (presses : nat) : M Status := fun c =>
  match (generator <- PoemGenerator_init ;;
         log INFO (lit "Press the button to take a photo and generate a poem...") ;;
         serve presses generator) c with
  | (Raise KeyboardInterrupt, c1, t1) =>
      let '(r, c2, t2) :=
        (log INFO (lit "Program terminated by user") ;;
         try_except_all (call Camera CameraStop) (ret tt) ;;
         ret Returned) c1 in
      (r, c2, t1 ++ t2)
  | (Raise (Exc e), c1, t1) =>
      let '(r, c2, t2) :=
        (log ERROR (lit "Program failed: " ++ exc_msg e) ;;
         raise (SystemExit 1)) c1 in
      (r, c2, t1 ++ t2)
  | other => other
  end.

End Program.

(** The exit code of the process once [main] is over: 0 when it returns,
    the code of [sys.exit], 1 for an uncaught exception, 130 for an
    uncaught interrupt; none while the loop is still waiting. *)
Definition exit_code (r : Result Status) : option Z :=
  match r with
  | Ok StillWaiting => None
  | Ok Returned => Some 0%Z
  | Raise (SystemExit code) => Some code
  | Raise (Exc _) => Some 1%Z
  | Raise KeyboardInterrupt => Some 130%Z
  end.

(* ================================================================== *)
(** ** Observations on traces *)

(** The stage methods invoked, in order. *)
Fixpoint stages (t : Trace) : list Stage :=
  match t with
  | [] => []
  | Enter st :: t' => st :: stages t'
  | _ :: t' => stages t'
  end.

Definition Stage_eqb (a b : Stage) : bool :=
  match a, b with
  | TakePhoto, TakePhoto | GenerateCaption, GenerateCaption
  | GeneratePoem, GeneratePoem | PrintPoem, PrintPoem
  | ResetHardware, ResetHardware => true
  | _, _ => false
  end.

(** How many times stage [st] was invoked during [t]. *)
Definition invocations (st : Stage) (t : Trace) : nat :=
  List.length (filter (Stage_eqb st) (stages t)).

(** The bytes accepted by the printer channel, in order. *)
Fixpoint bytes_sent (t : Trace) : bytes :=
  match t with
  | [] => []
  | Write data :: t' => data ++ bytes_sent t'
  | _ :: t' => bytes_sent t'
  end.

(** Is the printer channel open after [t], when it was [b] before? *)
Fixpoint channel_open (b : bool) (t : Trace) : bool :=
  match t with
  | [] => b
  | Open _ :: t' => channel_open true t'
  | Close :: t' => channel_open false t'
  | _ :: t' => channel_open b t'
  end.

(** The device failures raised during [t]. *)
Fixpoint faults (d : Device) (t : Trace) : list Exception :=
  match t with
  | [] => []
  | Fault d' e :: t' => if Device_eqb d d' then e :: faults d t' else faults d t'
  | _ :: t' => faults d t'
  end.

(** Number of trigger events accepted. *)
Fixpoint presses_accepted (t : Trace) : nat :=
  match t with
  | [] => 0
  | WaitForPress :: t' => S (presses_accepted t')
  | _ :: t' => presses_accepted t'
  end.

(** The outcome of a run, as [main] decides it from the value that
    [process_photo_and_generate_poem] returned. *)
Inductive Outcome := Succeeded | Failed.

Definition run_outcome (poem : option str) : Outcome :=
  if truthy poem then Succeeded else Failed.

(** The outcome lines that [main] logs before it resets the hardware. *)
Definition outcome_of_event (ev : Event) : option Outcome :=
  match ev with
  | Log INFO msg =>
      if str_eqb msg (lit "Process completed successfully") then Some Succeeded else None
  | Log ERROR msg =>
      if str_eqb msg (lit "Process failed - resetting system") then Some Failed else None
  | _ => None
  end.

Fixpoint logged_outcomes (t : Trace) : list Outcome :=
  match t with
  | [] => []
  | ev :: t' =>
      match outcome_of_event ev with
      | Some o => o :: logged_outcomes t'
      | None => logged_outcomes t'
      end
  end.

(** The requests received by the composition service: persona and user
    prompt. *)
Fixpoint completions (t : Trace) : list (str * str) :=
  match t with
  | [] => []
  | ChatCompletion system user :: t' => (system, user) :: completions t'
  | _ :: t' => completions t'
  end.

(* ================================================================== *)
(** ** Reference points: the composer as specified, sample worlds *)

(** The phrase that the persona requires every poem to mention. *)
Definition mandatory_phrase : str := lit "by mitsubishi outlander".

(** The composer in the words of its specification: the fixed
    instruction block, the fixed format line and the scene line, plainly
    concatenated. *)
Definition instruction_block : str :=
  lit "Write a poem which integrates details from what I describe below." ++ NL ++
  lit "Use the specified poem format. The references to the source material must be subtle yet clear." ++ NL ++
  lit "Focus on a unique and elegant poem and use specific ideas and details." ++ NL ++
  lit "You must keep vocabulary simple and use understated point of view. This is very important." ++ NL ++ NL.

Definition format_line : str := lit "Poem format: 8 line free verse." ++ NL ++ NL.

Definition compose_spec (caption : str) : str :=
  instruction_block ++ format_line ++ (lit "Scene description: " ++ caption ++ NL ++ NL).

(** The line that [main] logs once the pipeline has returned [poem]. *)
Definition outcome_line (poem : option str) : Event :=
  if truthy poem
  then Log INFO (lit "Process completed successfully")
  else Log ERROR (lit "Process failed - resetting system").

(** What a run leaves in the trace after its first call [x1] of
    [reset_hardware]: the closing line when the reset returned; the
    handler's line, the second reset and its possible complaint when the
    reset raised. *)
Definition after_first_reset (w : World) (g : PoemGenerator)
    (x1 : Result unit * Counters * Trace) : Trace :=
  match result_of x1 with
  | Ok _ => [Log INFO (lit "System reset completed - ready for next button press")]
  | Raise (Exc e) =>
      let x2 := reset_hardware w g (counters_of x1) in
      [Log ERROR (lit "Process failed with error: " ++ exc_msg e)]
        ++ trace_of x2
        ++ match result_of x2 with
           | Ok _ => []
           | Raise _ => [Log ERROR (lit "Failed to reset hardware after error")]
           end
  | Raise _ => []
  end.

(** A world in which both credentials are set and nothing ever fails. *)
Definition healthy : World :=
  {| environ := fun name =>
       if String.eqb name "OPENAI_API_KEY" then Some (lit "sk-test")
       else if String.eqb name "REPLICATE_API_TOKEN" then Some (lit "r8-test")
       else None;
     fault := fun _ _ => None;
     interrupt := fun _ => false;
     now := fun _ => lit "20240101_120000";
     caption_of := fun _ => lit "a dog sitting on a porch";
     content_of := fun _ => Some (lit "line1" ++ NL ++ lit "line2") |}.

Definition with_faults (f : Device -> nat -> option Exception) (w : World) : World :=
  {| environ := environ w; fault := f; interrupt := interrupt w;
     now := now w; caption_of := caption_of w; content_of := content_of w |}.

Definition with_environ (env : string -> option str) (w : World) : World :=
  {| environ := env; fault := fault w; interrupt := interrupt w;
     now := now w; caption_of := caption_of w; content_of := content_of w |}.

(** The operator interrupts the button's call number [k0]; after the
    constructor, call 0 built the button and call 1 is the first wait. *)
Definition interrupted_at (k0 : nat) (w : World) : World :=
  {| environ := environ w; fault := fault w; interrupt := fun k => Nat.eqb k k0;
     now := now w; caption_of := caption_of w; content_of := content_of w |}.

Definition io_error : Exception :=
  {| exc_class := "OSError"; exc_msg := lit "[Errno 5] Input/output error" |}.

(** Every camera call fails. *)
Definition broken_camera : World :=
  with_faults (fun d _ => match d with Camera => Some io_error | _ => None end) healthy.

(** The camera answers its call 0 (the capture of a run started on
    [fresh] counters) and fails from the next call on. *)
Definition camera_dies_after_capture : World :=
  with_faults (fun d k => match d, k with
                          | Camera, S _ => Some io_error
                          | _, _ => None
                          end) healthy.

(** Only call 0 of the camera (the capture of a run started on [fresh]
    counters) fails. *)
Definition capture_fails : World :=
  with_faults (fun d k => match d, k with
                          | Camera, 0 => Some io_error
                          | _, _ => None
                          end) healthy.

(** The printer device cannot be opened or written. *)
Definition printer_down : World :=
  with_faults (fun d _ => match d with Printer => Some io_error | _ => None end) healthy.

(** The generator that [PoemGenerator()] builds in the [healthy] world. *)
Definition sample_generator : PoemGenerator :=
  {| openai_api_key := lit "sk-test";
     replicate_token := lit "r8-test";
     image_dir := lit "/home/pi/images";
     printer := ThermalPrinter_init;
     system_prompt := p_system_prompt setup_prompts;
     prompt_base := p_prompt_base setup_prompts;
     poem_format := p_poem_format setup_prompts |}.

(** The same prompts behind other credentials and another device. *)
Definition other_generator : PoemGenerator :=
  {| openai_api_key := lit "sk-other";
     replicate_token := lit "r8-other";
     image_dir := lit "/tmp/images";
     printer := {| port := lit "/dev/usb/lp1"; baudrate := 19200%N |};
     system_prompt := p_system_prompt setup_prompts;
     prompt_base := p_prompt_base setup_prompts;
     poem_format := p_poem_format setup_prompts |}.

Definition sample_caption : str := lit "a dog sitting on a porch".

(* ------------------------------------------------------------------ *)
(** Further observations and sample worlds, for the properties of the
    functions around the pipeline. *)

(** Every failure raised by a collaborator during [t], in order. *)
Fixpoint all_faults (t : Trace) : list Exception :=
  match t with
  | [] => []
  | Fault _ e :: t' => e :: all_faults t'
  | _ :: t' => all_faults t'
  end.

(** The lines by which [main] reports on the process in its log: the two
    outcome lines it writes before the reset, and the line of its
    handler, "Process failed with error: " followed by the cause, which
    reads as a failure. *)
Definition status_of_event (ev : Event) : option Outcome :=
  match outcome_of_event ev with
  | Some o => Some o
  | None =>
      match ev with
      | Log ERROR msg =>
          if startswith msg (lit "Process failed with error: ")
          then Some Failed
          else None
      | _ => None
      end
  end.

Fixpoint status_lines (t : Trace) : list Outcome :=
  match t with
  | [] => []
  | ev :: t' =>
      match status_of_event ev with
      | Some o => o :: status_lines t'
      | None => status_lines t'
      end
  end.

(** The seconds spent in [time.sleep] during [t]. *)
Fixpoint slept (t : Trace) : nat :=
  match t with
  | [] => 0
  | Sleep n :: t' => n + slept t'
  | _ :: t' => slept t'
  end.

(** The path of the photo that [take_photo] asks the camera for when
    the clock has been read [k] times. *)
Definition photo_path_at (w : World) (g : PoemGenerator) (k : nat) : str :=
  image_dir g ++ lit "/captured_image_" ++ now w k ++ lit ".jpg".

(** The stream of one complete [print_text text]. *)
Definition printed (text : str) : bytes :=
  [x1b; x40] ++ [x1b; x61; x01] ++ encode_ascii_replace text
    ++ [x0a; x0a; x0a; x0a] ++ [x1d; x56; x41; x03].

Definition with_content (f : nat -> option str) (w : World) : World :=
  {| environ := environ w; fault := fault w; interrupt := interrupt w;
     now := now w; caption_of := caption_of w; content_of := f |}.

(** The caption service refuses every call. *)
Definition caption_service_down : World :=
  with_faults (fun d _ => match d with CaptionService => Some io_error | _ => None end)
              healthy.

(** The composition service answers its call 0 (the construction of the
    client) and refuses every later call. *)
Definition composition_service_down : World :=
  with_faults (fun d k => match d, k with
                          | CompositionService, S _ => Some io_error
                          | _, _ => None
                          end) healthy.

(** The composition service answers with no content. *)
Definition no_content : World := with_content (fun _ => None) healthy.

(** The button cannot be waited for: its call 0 (the construction)
    works, every later call raises. *)
Definition button_broken : World :=
  with_faults (fun d k => match d, k with
                          | Trigger, S _ => Some io_error
                          | _, _ => None
                          end) healthy.

Arguments lit : simpl never.

(** Case analysis on the answer of the next collaborator call, reusing
    an answer that is already known. *)
Ltac next_call :=
  match goal with
  | |- context [fault ?w ?d ?k] =>
      lazymatch goal with
      | H : fault w d k = _ |- _ => rewrite H
      | _ => destruct (fault w d k) eqn:?
      end
  | |- context [environ ?w ?k] =>
      lazymatch goal with
      | H : environ w k = _ |- _ => rewrite H
      | _ => destruct (environ w k) as [[|? ?]|] eqn:?
      end
  | |- context [interrupt ?w ?k] =>
      lazymatch goal with
      | H : interrupt w k = _ |- _ => rewrite H
      | _ => destruct (interrupt w k) eqn:?
      end
  end.

Ltac unfold_monad :=
  cbv [try_except try_except_all with_open bind finally_ write call close
       ret raise emit log enter sleep strftime_now replicate_run
       chat_completion wait_for_press result_of counters_of trace_of].

Ltac observe :=
  cbn [bump Device_eqb Stage_eqb app fst snd filter List.length
       bytes_sent channel_open stages faults presses_accepted completions].

Ltac run_program := unfold_monad; repeat (observe; try next_call).

Ltac observe_all :=
  cbn [bump Device_eqb Stage_eqb app fst snd filter List.length
       bytes_sent channel_open stages faults presses_accepted completions
       all_faults slept].

Ltac run_all := unfold_monad; repeat (observe_all; try next_call).

Ltac unfold_pipeline :=
  unfold process_photo_and_generate_poem, take_photo, generate_caption,
    generate_poem, print_poem, print_text.

(* ================================================================== *)
(** ** Strings *)

Lemma lstrip_split (chars s : str) :
  exists pre, s = pre ++ lstrip chars s /\
              Forall (fun ch => in_chars chars ch = true) pre.
Proof.
  induction s as [|ch s IH]; simpl.
  - exists []. split; [reflexivity | constructor].
  - destruct (in_chars chars ch) eqn:Hin.
    + destruct IH as [pre [Heq Hall]].
      exists (ch :: pre). split.
      * simpl. now rewrite <- Heq.
      * now constructor.
    + exists []. split; [reflexivity | constructor].
Qed.

Lemma rstrip_split (chars s : str) :
  exists suf, s = rstrip chars s ++ suf /\
              Forall (fun ch => in_chars chars ch = true) suf.
Proof.
  unfold rstrip.
  destruct (lstrip_split chars (rev s)) as [pre [Heq Hall]].
  exists (rev pre). split.
  - rewrite <- rev_app_distr, <- Heq. now rewrite rev_involutive.
  - now apply Forall_rev.
Qed.

(** [strip] only removes a prefix and a suffix, both made of characters
    of the set; the text between them is kept as it is. *)
Lemma strip_split (chars s : str) :
  exists pre suf,
    s = pre ++ strip chars s ++ suf /\
    Forall (fun ch => in_chars chars ch = true) pre /\
    Forall (fun ch => in_chars chars ch = true) suf.
Proof.
  destruct (lstrip_split chars s) as [pre [Hl Hpre]].
  destruct (rstrip_split chars (lstrip chars s)) as [suf [Hr Hsuf]].
  exists pre, suf. repeat split; try assumption.
  unfold strip. now rewrite <- Hr.
Qed.

Lemma lstrip_keeps (chars : str) (ch : codepoint) (s : str) :
  in_chars chars ch = false -> lstrip chars (ch :: s) = ch :: s.
Proof. intros H. simpl. now rewrite H. Qed.

(** A text whose first and last characters are outside the set is left
    unchanged by [strip]. *)
Lemma strip_noop (chars : str) (a b : codepoint) (mid : str) :
  in_chars chars a = false ->
  in_chars chars b = false ->
  strip chars (a :: mid ++ [b]) = a :: mid ++ [b].
Proof.
  intros Ha Hb. unfold strip, rstrip.
  rewrite (lstrip_keeps _ _ _ Ha).
  replace (rev (a :: mid ++ [b])) with (b :: rev (a :: mid)).
  2:{ change (a :: mid ++ [b]) with ((a :: mid) ++ [b]).
      now rewrite rev_app_distr. }
  rewrite (lstrip_keeps _ _ _ Hb).
  change (b :: rev (a :: mid)) with ([b] ++ rev (a :: mid)).
  rewrite rev_app_distr, rev_involutive. reflexivity.
Qed.

Lemma encode_char_ascii (c : codepoint) :
  (c < 128)%N -> Byte.to_N (encode_char c) = c.
Proof.
  intros H. unfold encode_char.
  apply N.ltb_lt in H as Hb. rewrite Hb.
  destruct (Byte.of_N c) as [b|] eqn:E.
  - now apply Byte.to_of_N.
  - apply Byte.of_N_None_iff in E. lia.
Qed.

Lemma encode_char_other (c : codepoint) :
  (128 <= c)%N -> encode_char c = "?"%byte.
Proof.
  intros H. unfold encode_char.
  apply N.ltb_ge in H. now rewrite H.
Qed.

(* ================================================================== *)
(** ** Stepping through the program *)

Lemma stages_app (t1 t2 : Trace) : stages (t1 ++ t2) = stages t1 ++ stages t2.
Proof.
  induction t1 as [|ev t1 IH]; [reflexivity|].
  destruct ev; simpl; now rewrite ?IH.
Qed.

Lemma invocations_app (st : Stage) (t1 t2 : Trace) :
  invocations st (t1 ++ t2) = invocations st t1 + invocations st t2.
Proof.
  unfold invocations. now rewrite stages_app, filter_app, List.length_app.
Qed.

Lemma logged_outcomes_app (t1 t2 : Trace) :
  logged_outcomes (t1 ++ t2) = logged_outcomes t1 ++ logged_outcomes t2.
Proof.
  induction t1 as [|ev t1 IH]; [reflexivity|].
  simpl. destruct (outcome_of_event ev); simpl; now rewrite IH.
Qed.

Lemma presses_accepted_app (t1 t2 : Trace) :
  presses_accepted (t1 ++ t2) = presses_accepted t1 + presses_accepted t2.
Proof.
  induction t1 as [|ev t1 IH]; [reflexivity|].
  destruct ev; simpl; now rewrite ?IH.
Qed.

Lemma completions_app (t1 t2 : Trace) :
  completions (t1 ++ t2) = completions t1 ++ completions t2.
Proof.
  induction t1 as [|ev t1 IH]; [reflexivity|].
  destruct ev; simpl; now rewrite ?IH.
Qed.


(* ================================================================== *)
(** ** Printer channel *)

(** The stream of a call of [print_text] that returns normally. *)
Lemma print_text_stream (w : World) (self : ThermalPrinter) (text : str) (c : Counters) :
  result_of (print_text w self text c) = Ok tt ->
  bytes_sent (trace_of (print_text w self text c)) =
    [x1b; x40] ++ [x1b; x61; x01] ++ encode_ascii_replace text
      ++ [x0a; x0a; x0a; x0a] ++ [x1d; x56; x41; x03].
Proof.
  unfold print_text. run_program; try discriminate.
  intros _. reflexivity.
Qed.

(** Whatever the device does, what was sent is an initial part of that
    stream, cut at a boundary between two writes. *)
Lemma print_text_stream_prefix (w : World) (self : ThermalPrinter) (text : str) (c : Counters) :
  exists rest,
    [x1b; x40] ++ [x1b; x61; x01] ++ encode_ascii_replace text
      ++ [x0a; x0a; x0a; x0a] ++ [x1d; x56; x41; x03]
    = bytes_sent (trace_of (print_text w self text c)) ++ rest.
Proof.
  unfold print_text. run_program;
    rewrite ?app_nil_r; cbn [app];
    try (eexists; reflexivity);
    try (eexists; rewrite <- app_assoc; reflexivity).
Qed.

(** C4. For every text, a call of [print_text] that completes has sent
    the reset sequence 1B 40 first, then the centre-align sequence
    1B 61 01, then the encoded text, then four line feeds and last the
    cut sequence 1D 56 41 03; a call that the device interrupts has sent
    an initial part of that same stream. *)
Theorem print_text_framing (w : World) (self : ThermalPrinter) (text : str) (c : Counters) :
  (result_of (print_text w self text c) = Ok tt ->
   bytes_sent (trace_of (print_text w self text c)) =
     [x1b; x40] ++ [x1b; x61; x01] ++ encode_ascii_replace text
       ++ [x0a; x0a; x0a; x0a] ++ [x1d; x56; x41; x03]) /\
  (exists rest,
     [x1b; x40] ++ [x1b; x61; x01] ++ encode_ascii_replace text
       ++ [x0a; x0a; x0a; x0a] ++ [x1d; x56; x41; x03]
     = bytes_sent (trace_of (print_text w self text c)) ++ rest).
Proof.
  split.
  - apply print_text_stream.
  - apply print_text_stream_prefix.
Qed.

Lemma print_text_framing_witness :
  result_of (print_text healthy ThermalPrinter_init (lit "hello") fresh) = Ok tt /\
  bytes_sent (trace_of (print_text healthy ThermalPrinter_init (lit "hello") fresh)) =
    [x1b; x40] ++ [x1b; x61; x01] ++ encode_ascii_replace (lit "hello")
      ++ [x0a; x0a; x0a; x0a] ++ [x1d; x56; x41; x03].
Proof.
  split.
  - reflexivity.
  - apply (proj1 (print_text_framing healthy ThermalPrinter_init (lit "hello") fresh)).
    reflexivity.
Defined.

(** C6. A failing [print_text] hands its caller one exception, the one
    the channel raised last (the failed open or write, or the failed
    flush on close); a call without channel failure returns normally;
    and in both cases the channel, closed before the call, is closed
    after it. *)
Theorem print_text_error_and_release (w : World) (self : ThermalPrinter) (text : str) (c : Counters) :
  channel_open false (trace_of (print_text w self text c)) = false /\
  match result_of (print_text w self text c) with
  | Ok _ => faults Printer (trace_of (print_text w self text c)) = []
  | Raise b =>
      exists e earlier,
        b = Exc e /\
        faults Printer (trace_of (print_text w self text c)) = earlier ++ [e]
  end.
Proof.
  unfold print_text. run_program; split; try reflexivity;
    try (eexists; exists []; split; reflexivity);
    try (eexists; eexists [_]; split; reflexivity).
Qed.

(** C8. [print_poem] sends, as payload between the protocol bytes, the
    poem wrapped in one leading and one trailing newline and encoded
    character by character: a code point below 128 as itself, any other
    as the substitute [?]; whether the call succeeds does not depend on
    the poem; for the poem "line1\nline2" the payload is
    "\nline1\nline2\n". *)
Theorem print_poem_payload (w : World) (self : PoemGenerator) (poem : str) (c : Counters) :
  (result_of (print_poem w self (Some poem) c) = Ok tt ->
   bytes_sent (trace_of (print_poem w self (Some poem) c)) =
     [x1b; x40] ++ [x1b; x61; x01]
       ++ ([x0a] ++ map encode_char poem ++ [x0a])
       ++ [x0a; x0a; x0a; x0a] ++ [x1d; x56; x41; x03]) /\
  (forall ch, ((ch < 128)%N -> Byte.to_N (encode_char ch) = ch) /\
              ((128 <= ch)%N -> encode_char ch = x3f)) /\
  (forall other, result_of (print_poem w self (Some other) c)
                 = result_of (print_poem w self (Some poem) c)) /\
  encode_ascii_replace (NL ++ format (Some (lit "line1" ++ NL ++ lit "line2")) ++ NL)
    = [x0a; x6c; x69; x6e; x65; x31; x0a; x6c; x69; x6e; x65; x32; x0a].
Proof.
  repeat split.
  - unfold print_poem, print_text. run_program; try discriminate.
    intros _. unfold encode_ascii_replace, NL, format.
    rewrite !map_app. reflexivity.
  - apply encode_char_ascii.
  - apply encode_char_other.
  - intros other. unfold print_poem, print_text. run_program; reflexivity.
Qed.

Lemma print_poem_payload_witness :
  result_of (print_poem healthy sample_generator (Some (lit "line1" ++ NL ++ lit "line2")) fresh)
    = Ok tt /\
  bytes_sent (trace_of (print_poem healthy sample_generator
                          (Some (lit "line1" ++ NL ++ lit "line2")) fresh)) =
    [x1b; x40] ++ [x1b; x61; x01]
      ++ ([x0a] ++ map encode_char (lit "line1" ++ NL ++ lit "line2") ++ [x0a])
      ++ [x0a; x0a; x0a; x0a] ++ [x1d; x56; x41; x03].
Proof.
  split.
  - reflexivity.
  - apply (proj1 (print_poem_payload healthy sample_generator
                    (lit "line1" ++ NL ++ lit "line2") fresh)).
    reflexivity.
Defined.

(* ================================================================== *)
(** ** Prompt composer *)

(** What the constructor leaves in the attributes that the composer and
    the printer stage read. *)
Lemma init_attributes (w : World) (c : Counters) (g : PoemGenerator) :
  result_of (PoemGenerator_init w c) = Ok g ->
  system_prompt g = p_system_prompt setup_prompts /\
  prompt_base g = p_prompt_base setup_prompts /\
  poem_format g = p_poem_format setup_prompts /\
  printer g = ThermalPrinter_init.
Proof.
  unfold PoemGenerator_init, setup_environment, initialize_hardware, _get_env_var.
  run_program; try discriminate.
  all: intros H; injection H as <-; repeat split.
Qed.

Lemma init_healthy : result_of (PoemGenerator_init healthy fresh) = Ok sample_generator.
Proof. reflexivity. Qed.

Lemma instruction_block_head : exists t, instruction_block = 87%N :: t.
Proof. eexists. vm_compute. reflexivity. Qed.

Lemma compose_spec_ends (caption : str) :
  exists mid, compose_spec caption = 87%N :: mid ++ [10%N].
Proof.
  destruct instruction_block_head as [t Ht].
  exists (t ++ format_line ++ lit "Scene description: " ++ caption ++ NL).
  unfold compose_spec. rewrite Ht. unfold NL.
  rewrite <- app_comm_cons. f_equal.
  rewrite <- !app_assoc. reflexivity.
Qed.

Lemma unstripped_prompt_after_setup (g : PoemGenerator) (caption : str) :
  prompt_base g = p_prompt_base setup_prompts ->
  poem_format g = p_poem_format setup_prompts ->
  unstripped_prompt g caption = compose_spec caption.
Proof.
  intros Hb Hf. unfold unstripped_prompt, compose_spec. rewrite Hb, Hf.
  assert (Hfl : lit "Poem format: " ++ p_poem_format setup_prompts ++ NL ++ NL
                = format_line) by (vm_compute; reflexivity).
  rewrite Hfl. reflexivity.
Qed.

(** After the constructor, the strip has nothing to remove. *)
Lemma generate_prompt_after_init
    (w : World) (c : Counters) (g : PoemGenerator) (caption : str) :
  result_of (PoemGenerator_init w c) = Ok g ->
  generate_prompt g caption = compose_spec caption /\
  strip strip_chars (compose_spec caption) = compose_spec caption.
Proof.
  intros Hinit.
  destruct (init_attributes _ _ _ Hinit) as (_ & Hb & Hf & _).
  destruct (compose_spec_ends caption) as [mid Hmid].
  assert (Hstrip : strip strip_chars (compose_spec caption) = compose_spec caption).
  { rewrite Hmid. apply strip_noop; reflexivity. }
  split; [|exact Hstrip].
  change (generate_prompt g caption)
    with (strip strip_chars (unstripped_prompt g caption)).
  rewrite (unstripped_prompt_after_setup g caption Hb Hf). exact Hstrip.
Qed.

(** C3. The composer's result is determined by the caption and the two
    template attributes alone, and it is the concatenated text minus a
    prefix and a suffix that consist of the characters [, ], {, }, ':
    the text between them, with every such character in it, is kept. *)
Theorem generate_prompt_pure_and_strips_ends_only (g : PoemGenerator) (caption : str) :
  (forall g' caption',
     prompt_base g' = prompt_base g ->
     poem_format g' = poem_format g ->
     caption' = caption ->
     generate_prompt g' caption' = generate_prompt g caption) /\
  generate_prompt g caption = strip strip_chars (unstripped_prompt g caption) /\
  (exists pre suf,
     unstripped_prompt g caption = pre ++ generate_prompt g caption ++ suf /\
     Forall (fun ch => in_chars strip_chars ch = true) pre /\
     Forall (fun ch => in_chars strip_chars ch = true) suf).
Proof.
  split; [|split].
  - intros g' caption' Hb Hf ->. unfold generate_prompt. now rewrite Hb, Hf.
  - reflexivity.
  - apply strip_split.
Qed.

Lemma generate_prompt_pure_witness :
  prompt_base other_generator = prompt_base sample_generator /\
  poem_format other_generator = poem_format sample_generator /\
  generate_prompt other_generator (lit "a [dog] on a {porch}")
    = generate_prompt sample_generator (lit "a [dog] on a {porch}").
Proof.
  split; [reflexivity|]. split; [reflexivity|].
  apply (proj1 (generate_prompt_pure_and_strips_ends_only
                  sample_generator (lit "a [dog] on a {porch}")));
    reflexivity.
Defined.

(** C10. For the generator that the constructor builds and every
    caption, the composer returns the plain concatenation of the
    instruction block, the format line and the scene line: that text
    begins with the letter W and ends with a newline, neither of which
    is stripped, so the strip changes nothing. *)
Theorem generate_prompt_is_concatenation
    (w : World) (c : Counters) (g : PoemGenerator) (caption : str) :
  result_of (PoemGenerator_init w c) = Ok g ->
  generate_prompt g caption = compose_spec caption /\
  strip strip_chars (compose_spec caption) = compose_spec caption /\
  (exists mid, compose_spec caption = 87%N :: mid ++ [10%N]) /\
  in_chars strip_chars 87%N = false /\
  in_chars strip_chars 10%N = false.
Proof.
  intros Hinit.
  destruct (generate_prompt_after_init w c g caption Hinit) as [Hg Hstrip].
  split; [exact Hg|]. split; [exact Hstrip|].
  split; [apply compose_spec_ends|]. split; reflexivity.
Qed.

Lemma generate_prompt_is_concatenation_witness :
  result_of (PoemGenerator_init healthy fresh) = Ok sample_generator /\
  generate_prompt sample_generator (lit "a 'cat' in a [box]")
    = compose_spec (lit "a 'cat' in a [box]").
Proof.
  split.
  - reflexivity.
  - apply (generate_prompt_is_concatenation healthy fresh sample_generator
             (lit "a 'cat' in a [box]")).
    reflexivity.
Defined.

(** C5, as the code has it.  For the caption "a dog sitting on a porch"
    the composer's result contains the scene line exactly once, starts
    with none of [, {, ', and does not contain the mandatory phrase at
    all: the phrase stands, exactly once, in the persona, which
    [generate_poem] passes to the composition service as the system
    message next to the composed prompt. *)
Theorem scenario_A_prompt (w : World) (c : Counters) (g : PoemGenerator) :
  result_of (PoemGenerator_init w c) = Ok g ->
  occurrences (lit "Scene description: a dog sitting on a porch")
              (generate_prompt g sample_caption) = 1 /\
  occurrences mandatory_phrase (generate_prompt g sample_caption) = 0 /\
  occurrences (lit "mitsubishi") (generate_prompt g sample_caption) = 0 /\
  occurrences mandatory_phrase (system_prompt g) = 1 /\
  (exists ch rest, generate_prompt g sample_caption = ch :: rest /\
                   in_chars (lit "[{'") ch = false) /\
  (forall w' c',
     completions (trace_of (generate_poem w' g sample_caption c')) =
       match fault w' CompositionService (c' CompositionService) with
       | None => [(system_prompt g, generate_prompt g sample_caption)]
       | Some _ => []
       end).
Proof.
  intros Hinit.
  destruct (init_attributes _ _ _ Hinit) as (Hs & Hb & Hf & _).
  assert (Hp : generate_prompt g sample_caption = compose_spec sample_caption)
    by apply (generate_prompt_after_init _ _ _ sample_caption Hinit).
  rewrite Hp, Hs.
  repeat split; try (vm_compute; reflexivity).
  - destruct (compose_spec_ends sample_caption) as [mid Hmid].
    rewrite Hmid. eexists _, _. split; reflexivity.
  - intros w' c'. unfold generate_poem. rewrite Hp, Hs.
    run_program; reflexivity.
Qed.

Lemma scenario_A_prompt_witness :
  result_of (PoemGenerator_init healthy fresh) = Ok sample_generator /\
  occurrences (lit "Scene description: a dog sitting on a porch")
              (generate_prompt sample_generator sample_caption) = 1 /\
  occurrences mandatory_phrase (generate_prompt sample_generator sample_caption) = 0.
Proof.
  split; [reflexivity|].
  pose proof (scenario_A_prompt healthy fresh sample_generator eq_refl) as H.
  split; [exact (proj1 H) | exact (proj1 (proj2 H))].
Defined.

(** C5 as stated fails: the composed prompt for "a dog sitting on a
    porch" contains no occurrence of the mandatory phrase, not one. *)
Lemma scenario_A_phrase_not_in_prompt :
  result_of (PoemGenerator_init healthy fresh) = Ok sample_generator /\
  ~ (occurrences (lit "Scene description: a dog sitting on a porch")
                 (generate_prompt sample_generator sample_caption) = 1 /\
     occurrences mandatory_phrase (generate_prompt sample_generator sample_caption) = 1 /\
     (exists ch rest, generate_prompt sample_generator sample_caption = ch :: rest /\
                      in_chars (lit "[{'") ch = false)).
Proof.
  split; [reflexivity|].
  intros (_ & H & _). vm_compute in H. discriminate.
Qed.

(* ================================================================== *)
(** ** Hardware reset *)

Lemma reset_hardware_result (w : World) (g : PoemGenerator) (c : Counters) :
  result_of (reset_hardware w g c) = Ok tt \/
  exists e, result_of (reset_hardware w g c) = Raise (Exc e).
Proof.
  unfold reset_hardware. run_program;
    solve [left; reflexivity | right; eexists; reflexivity].
Qed.

Lemma reset_hardware_observed (w : World) (g : PoemGenerator) (c : Counters) :
  stages (trace_of (reset_hardware w g c)) = [ResetHardware] /\
  logged_outcomes (trace_of (reset_hardware w g c)) = [] /\
  presses_accepted (trace_of (reset_hardware w g c)) = 0.
Proof.
  unfold reset_hardware. run_program; (split; [|split]); reflexivity.
Qed.

(** The reset raises exactly when stopping or restarting the camera
    does; what the printer does to the pre-clear is swallowed. *)
Lemma reset_hardware_raises_iff (w : World) (g : PoemGenerator) (c : Counters) :
  result_of (reset_hardware w g c) =
    match fault w Camera (c Camera) with
    | Some e => Raise (Exc e)
    | None =>
        match fault w Camera (S (c Camera)) with
        | Some e => Raise (Exc e)
        | None => Ok tt
        end
    end.
Proof.
  unfold reset_hardware. run_program; reflexivity.
Qed.

(* ================================================================== *)
(** ** The pipeline *)

Lemma process_returns (w : World) (g : PoemGenerator) (c : Counters) :
  exists poem, result_of (process_photo_and_generate_poem w g c) = Ok poem.
Proof.
  unfold process_photo_and_generate_poem, take_photo, generate_caption,
    generate_poem, print_poem, print_text.
  run_program; eexists; reflexivity.
Qed.

Lemma process_observed (w : World) (g : PoemGenerator) (c : Counters) :
  invocations ResetHardware (trace_of (process_photo_and_generate_poem w g c)) = 0 /\
  logged_outcomes (trace_of (process_photo_and_generate_poem w g c)) = [] /\
  presses_accepted (trace_of (process_photo_and_generate_poem w g c)) = 0.
Proof.
  unfold process_photo_and_generate_poem, take_photo, generate_caption,
    generate_poem, print_poem, print_text.
  run_program; (split; [|split]); reflexivity.
Qed.

(** A failed capture ends the pipeline at once. *)
Lemma process_capture_fails (w : World) (g : PoemGenerator) (c : Counters) (e : Exception) :
  fault w Camera (c Camera) = Some e ->
  result_of (process_photo_and_generate_poem w g c) = Ok None /\
  stages (trace_of (process_photo_and_generate_poem w g c)) = [TakePhoto].
Proof.
  intros H.
  unfold process_photo_and_generate_poem, take_photo.
  run_program. split; reflexivity.
Qed.

Lemma logged_outcome_line (poem : option str) :
  logged_outcomes [outcome_line poem] = [run_outcome poem].
Proof.
  unfold outcome_line, run_outcome. destruct (truthy poem); reflexivity.
Qed.

Lemma stages_outcome_line (poem : option str) : stages [outcome_line poem] = [].
Proof. unfold outcome_line. destruct (truthy poem); reflexivity. Qed.

Lemma presses_outcome_line (poem : option str) :
  presses_accepted [outcome_line poem] = 0.
Proof. unfold outcome_line. destruct (truthy poem); reflexivity. Qed.

(** One run, spelled out: the pipeline, the outcome line, the reset and
    what follows it, the closing pause.  It always returns. *)
Lemma run_once_unfolded (w : World) (g : PoemGenerator) (c : Counters) :
  exists poem,
    result_of (process_photo_and_generate_poem w g c) = Ok poem /\
    result_of (run_once w g c) = Ok tt /\
    trace_of (run_once w g c) =
      trace_of (process_photo_and_generate_poem w g c)
        ++ [outcome_line poem]
        ++ trace_of (reset_hardware w g (counters_of (process_photo_and_generate_poem w g c)))
        ++ after_first_reset w g
             (reset_hardware w g (counters_of (process_photo_and_generate_poem w g c)))
        ++ [Sleep 2].
Proof.
  destruct (process_returns w g c) as [poem Hp].
  exists poem. split; [exact Hp|].
  unfold run_once, after_first_reset, outcome_line.
  unfold_monad.
  destruct (process_photo_and_generate_poem w g c) as [[r0 c0] t0].
  cbn [result_of fst snd] in Hp. subst r0. cbn [fst snd].
  pose proof (reset_hardware_result w g c0) as H1.
  destruct (truthy poem);
    (destruct (reset_hardware w g c0) as [[r1 c1] t1];
     cbn [result_of fst snd] in H1;
     destruct H1 as [-> | [e ->]]; cbn [fst snd];
     [ split; [reflexivity|]; rewrite <- ?app_assoc; reflexivity
     | destruct (reset_hardware w g c1) as [[r2 c2] t2];
       destruct r2; cbn [fst snd];
       (split; [reflexivity|]; rewrite <- ?app_assoc; cbn [app];
        rewrite <- ?app_assoc; reflexivity) ]).
Qed.

Lemma after_first_reset_observed (w : World) (g : PoemGenerator) (c : Counters) :
  stages (after_first_reset w g (reset_hardware w g c)) =
    match result_of (reset_hardware w g c) with
    | Ok _ => []
    | Raise _ => [ResetHardware]
    end /\
  logged_outcomes (after_first_reset w g (reset_hardware w g c)) = [] /\
  presses_accepted (after_first_reset w g (reset_hardware w g c)) = 0.
Proof.
  unfold after_first_reset.
  destruct (reset_hardware_result w g c) as [-> | [e ->]].
  - repeat split.
  - destruct (reset_hardware_observed w g (counters_of (reset_hardware w g c)))
      as (Hs & Ho & Hw).
    rewrite !stages_app, !logged_outcomes_app, !presses_accepted_app, Hs, Ho, Hw.
    destruct (result_of (reset_hardware w g (counters_of (reset_hardware w g c))));
      repeat split.
Qed.

(** What one run lets observe: it returns, logs one outcome (the one
    decided from the pipeline's result), accepts no trigger event, and
    invokes the stages of the pipeline followed by one reset, or by two
    when the first reset raised. *)
Lemma run_once_observed (w : World) (g : PoemGenerator) (c : Counters) :
  exists poem,
    result_of (process_photo_and_generate_poem w g c) = Ok poem /\
    result_of (run_once w g c) = Ok tt /\
    logged_outcomes (trace_of (run_once w g c)) = [run_outcome poem] /\
    presses_accepted (trace_of (run_once w g c)) = 0 /\
    stages (trace_of (run_once w g c)) =
      stages (trace_of (process_photo_and_generate_poem w g c))
        ++ ResetHardware ::
           match result_of (reset_hardware w g
                   (counters_of (process_photo_and_generate_poem w g c))) with
           | Ok _ => []
           | Raise _ => [ResetHardware]
           end.
Proof.
  destruct (run_once_unfolded w g c) as (poem & Hp & Hr & Ht).
  exists poem. split; [exact Hp|]. split; [exact Hr|].
  destruct (process_observed w g c) as (_ & Ho & Hw).
  set (c1 := counters_of (process_photo_and_generate_poem w g c)) in *.
  destruct (reset_hardware_observed w g c1) as (Hs1 & Ho1 & Hw1).
  destruct (after_first_reset_observed w g c1) as (Hs2 & Ho2 & Hw2).
  rewrite Ht.
  rewrite !logged_outcomes_app, !presses_accepted_app, !stages_app.
  rewrite Ho, Ho1, Ho2, Hw, Hw1, Hw2, Hs1, Hs2.
  rewrite logged_outcome_line, presses_outcome_line, stages_outcome_line.
  split; [reflexivity|]. split; [reflexivity|].
  cbn [app stages]. rewrite app_nil_r. reflexivity.
Qed.

(** As long as the button neither fails nor is interrupted, the loop
    takes every press, gives it one run and waits again. *)
Lemma serve_keeps_waiting (w : World) (g : PoemGenerator) :
  (forall k, interrupt w k = false) ->
  (forall k, fault w Trigger k = None) ->
  forall n c,
    result_of (serve w n g c) = Ok StillWaiting /\
    presses_accepted (trace_of (serve w n g c)) = n /\
    List.length (logged_outcomes (trace_of (serve w n g c))) = n.
Proof.
  intros Hi Hf. induction n as [|n IH]; intros c.
  - repeat split.
  - cbn [serve]. unfold_monad. rewrite Hi, Hf.
    destruct (run_once_observed w g (bump Trigger c)) as (poem & _ & Hr & Ho & Hw & _).
    destruct (run_once w g (bump Trigger c)) as [[r1 c1] t1].
    cbn [result_of trace_of fst snd] in Hr, Ho, Hw. subst r1.
    destruct (IH c1) as (Hr2 & Hw2 & Ho2).
    destruct (serve w n g c1) as [[r2 c2] t2].
    cbn [result_of trace_of fst snd] in Hr2, Hw2, Ho2. subst r2.
    cbn [fst snd app].
    split; [reflexivity|].
    match goal with
    | |- context [?a :: ?b :: ?d :: t1 ++ t2] =>
        change (a :: b :: d :: t1 ++ t2) with ([a; b; d] ++ t1 ++ t2)
    end.
    rewrite !presses_accepted_app, !logged_outcomes_app, !List.length_app.
    rewrite Hw, Ho, Hw2, Ho2.
    split; reflexivity.
Qed.

(* ================================================================== *)
(** ** Properties of a run *)

(** C1, as the code has it.  Whatever the four stages and the reset do,
    one run returns normally to the loop (no exception of a stage or of
    the reset escapes) and ends with its closing pause; the reset is
    invoked once when that invocation returns, and a second time when
    the first one raised.  With a button that is neither failing nor
    interrupted, the loop therefore takes each of [n] presses, runs the
    pipeline once for it and is waiting again. *)
Theorem run_always_rearms (w : World) (g : PoemGenerator) (c : Counters) :
  result_of (run_once w g c) = Ok tt /\
  invocations ResetHardware (trace_of (run_once w g c)) =
    match result_of (reset_hardware w g
            (counters_of (process_photo_and_generate_poem w g c))) with
    | Ok _ => 1
    | Raise _ => 2
    end /\
  (exists t, trace_of (run_once w g c) = t ++ [Sleep 2]) /\
  ((forall k, interrupt w k = false) ->
   (forall k, fault w Trigger k = None) ->
   forall n c',
     result_of (serve w n g c') = Ok StillWaiting /\
     presses_accepted (trace_of (serve w n g c')) = n /\
     List.length (logged_outcomes (trace_of (serve w n g c'))) = n).
Proof.
  destruct (run_once_observed w g c) as (poem & _ & Hr & _ & _ & Hs).
  split; [exact Hr|]. split; [|split].
  - unfold invocations. rewrite Hs, filter_app, List.length_app.
    destruct (process_observed w g c) as (H0 & _ & _).
    unfold invocations in H0. rewrite H0.
    destruct (result_of (reset_hardware w g _)); reflexivity.
  - destruct (run_once_unfolded w g c) as (poem' & _ & _ & Ht).
    rewrite Ht. rewrite !app_assoc. eexists. reflexivity.
  - apply serve_keeps_waiting.
Qed.

Lemma run_always_rearms_witness :
  (forall k, interrupt healthy k = false) /\
  (forall k, fault healthy Trigger k = None) /\
  result_of (serve healthy 2 sample_generator fresh) = Ok StillWaiting /\
  presses_accepted (trace_of (serve healthy 2 sample_generator fresh)) = 2.
Proof.
  split; [reflexivity|]. split; [reflexivity|].
  pose proof (proj2 (proj2 (proj2 (run_always_rearms healthy sample_generator fresh)))
                (fun _ => eq_refl) (fun _ => eq_refl) 2 fresh) as H.
  split; [exact (proj1 H) | exact (proj1 (proj2 H))].
Defined.

(** C1 as stated fails: when all four stages succeed and the camera then
    refuses to stop, the run invokes the reset twice. *)
Lemma reset_invoked_twice_when_first_reset_raises :
  stages (trace_of (process_photo_and_generate_poem
                      camera_dies_after_capture sample_generator fresh))
    = [TakePhoto; GenerateCaption; GeneratePoem; PrintPoem] /\
  invocations ResetHardware
    (trace_of (run_once camera_dies_after_capture sample_generator fresh)) = 2 /\
  invocations ResetHardware
    (trace_of (run_once camera_dies_after_capture sample_generator fresh)) <> 1.
Proof.
  split; [vm_compute; reflexivity|].
  split; [vm_compute; reflexivity|].
  vm_compute. discriminate.
Qed.

Lemma status_lines_app (t1 t2 : Trace) :
  status_lines (t1 ++ t2) = status_lines t1 ++ status_lines t2.
Proof.
  induction t1 as [|ev t1 IH]; [reflexivity|].
  simpl. destruct (status_of_event ev); simpl; now rewrite IH.
Qed.

Lemma process_status_lines (w : World) (g : PoemGenerator) (c : Counters) :
  status_lines (trace_of (process_photo_and_generate_poem w g c)) = [].
Proof.
  unfold process_photo_and_generate_poem, take_photo, generate_caption,
    generate_poem, print_poem, print_text.
  run_program; reflexivity.
Qed.

Lemma reset_status_lines (w : World) (g : PoemGenerator) (c : Counters) :
  status_lines (trace_of (reset_hardware w g c)) = [].
Proof. unfold reset_hardware. run_program; reflexivity. Qed.

Lemma status_outcome_line (poem : option str) :
  status_lines [outcome_line poem] = [run_outcome poem].
Proof.
  unfold outcome_line, run_outcome. destruct (truthy poem); reflexivity.
Qed.

Lemma startswith_prefix (p s : str) : startswith (p ++ s) p = true.
Proof.
  induction p as [|ch p IH]; simpl.
  - destruct s; reflexivity.
  - now rewrite N.eqb_refl, IH.
Qed.

Lemma status_of_handler_line (e : Exception) :
  status_lines [Log ERROR (lit "Process failed with error: " ++ exc_msg e)] = [Failed].
Proof.
  cbn [status_lines]. unfold status_of_event.
  replace (outcome_of_event
             (Log ERROR (lit "Process failed with error: " ++ exc_msg e)))
    with (@None Outcome) by reflexivity.
  now rewrite startswith_prefix.
Qed.

(** What the part of a run after its first reset adds to the status
    lines, and the handler's line in it. *)
Lemma after_first_reset_status (w : World) (g : PoemGenerator) (c : Counters) :
  status_lines (after_first_reset w g (reset_hardware w g c)) =
    match result_of (reset_hardware w g c) with
    | Ok _ => []
    | Raise _ => [Failed]
    end /\
  match result_of (reset_hardware w g c) with
  | Raise (Exc e) =>
      In (Log ERROR (lit "Process failed with error: " ++ exc_msg e))
         (after_first_reset w g (reset_hardware w g c))
  | _ => True
  end.
Proof.
  unfold after_first_reset.
  destruct (reset_hardware_result w g c) as [-> | [e ->]].
  - split; [reflexivity | exact I].
  - split.
    + rewrite !status_lines_app, reset_status_lines, status_of_handler_line.
      destruct (result_of (reset_hardware w g (counters_of (reset_hardware w g c))));
        reflexivity.
    + apply in_or_app. left. left. reflexivity.
Qed.

(** C2, as the code has it.  No failure of the reset leaves the run, and
    the outcome line written before the reset began stays the only
    outcome line of the run.  The log of the run does not stay as it
    was, though: when the reset raises (the camera fails to stop or to
    restart), [main]'s handler adds the line "Process failed with
    error: " with the cause, after a Succeeded run as well, so the lines
    reporting on the process are the outcome followed by one failure
    line exactly in that case.  A reset whose camera stop and restart
    succeed returns normally however the printer pre-clear fails; the
    run then invokes the reset once and its log reports the outcome
    alone. *)
Theorem reset_isolation (w : World) (g : PoemGenerator) (c : Counters) :
  result_of (run_once w g c) = Ok tt /\
  (exists poem,
     result_of (process_photo_and_generate_poem w g c) = Ok poem /\
     logged_outcomes (trace_of (run_once w g c)) = [run_outcome poem] /\
     status_lines (trace_of (run_once w g c)) =
       run_outcome poem ::
         match result_of (reset_hardware w g
                 (counters_of (process_photo_and_generate_poem w g c))) with
         | Ok _ => []
         | Raise _ => [Failed]
         end /\
     match result_of (reset_hardware w g
             (counters_of (process_photo_and_generate_poem w g c))) with
     | Raise (Exc e) =>
         In (Log ERROR (lit "Process failed with error: " ++ exc_msg e))
            (trace_of (run_once w g c))
     | _ => True
     end) /\
  (forall c1,
     fault w Camera (c1 Camera) = None ->
     fault w Camera (S (c1 Camera)) = None ->
     result_of (reset_hardware w g c1) = Ok tt) /\
  (fault w Camera (counters_of (process_photo_and_generate_poem w g c) Camera) = None ->
   fault w Camera (S (counters_of (process_photo_and_generate_poem w g c) Camera)) = None ->
   invocations ResetHardware (trace_of (run_once w g c)) = 1 /\
   status_lines (trace_of (run_once w g c))
     = logged_outcomes (trace_of (run_once w g c))).
Proof.
  destruct (run_once_observed w g c) as (poem & Hp & Hr & Ho & _ & Hs).
  destruct (run_once_unfolded w g c) as (poem' & Hp' & _ & Ht).
  rewrite Hp in Hp'. injection Hp' as <-.
  set (c1 := counters_of (process_photo_and_generate_poem w g c)) in *.
  destruct (after_first_reset_status w g c1) as [Hafter Hline].
  assert (Hstatus : status_lines (trace_of (run_once w g c)) =
                    run_outcome poem ::
                      match result_of (reset_hardware w g c1) with
                      | Ok _ => []
                      | Raise _ => [Failed]
                      end).
  { rewrite Ht, !status_lines_app, process_status_lines, status_outcome_line,
      reset_status_lines, Hafter.
    cbn [app status_lines]. rewrite app_nil_r. reflexivity. }
  split; [exact Hr|]. split; [|split].
  - exists poem. split; [exact Hp|]. split; [exact Ho|]. split; [exact Hstatus|].
    destruct (result_of (reset_hardware w g c1)) as [u|[e| |code]]; try exact I.
    rewrite Ht. apply in_or_app. right. apply in_or_app. right.
    apply in_or_app. right. apply in_or_app. left. exact Hline.
  - intros c2 H1 H2. rewrite reset_hardware_raises_iff, H1, H2. reflexivity.
  - intros H1 H2. split.
    + unfold invocations. rewrite Hs, filter_app, List.length_app.
      destruct (process_observed w g c) as (H0 & _ & _).
      unfold invocations in H0. rewrite H0.
      rewrite reset_hardware_raises_iff, H1, H2. reflexivity.
    + rewrite Hstatus, Ho, reset_hardware_raises_iff, H1, H2. reflexivity.
Qed.

Lemma reset_isolation_witness :
  fault printer_down Camera (fresh Camera) = None /\
  fault printer_down Camera (S (fresh Camera)) = None /\
  faults Printer (trace_of (reset_hardware printer_down sample_generator fresh))
    = [io_error] /\
  result_of (reset_hardware printer_down sample_generator fresh) = Ok tt.
Proof.
  split; [reflexivity|]. split; [reflexivity|]. split; [reflexivity|].
  apply (proj1 (proj2 (proj2 (reset_isolation printer_down sample_generator fresh))));
    reflexivity.
Defined.

(** C2 as stated fails: when all four stages succeed and the camera then
    refuses to stop, the log of the run reports the process as completed
    successfully and, after the reset, as failed. *)
Lemma reset_failure_reported_as_process_failure :
  (exists poem,
     result_of (process_photo_and_generate_poem
                  camera_dies_after_capture sample_generator fresh) = Ok poem /\
     run_outcome poem = Succeeded) /\
  In (Log ERROR (lit "Process failed with error: [Errno 5] Input/output error"))
     (trace_of (run_once camera_dies_after_capture sample_generator fresh)) /\
  status_lines (trace_of (run_once camera_dies_after_capture sample_generator fresh))
    = [Succeeded; Failed] /\
  status_lines (trace_of (run_once camera_dies_after_capture sample_generator fresh))
    <> [Succeeded].
Proof.
  split; [eexists; split; vm_compute; reflexivity|].
  split.
  - vm_compute. repeat first [left; reflexivity | right].
  - split; [vm_compute; reflexivity|]. vm_compute. discriminate.
Qed.

(** C7, as the code has it.  When the capture fails, the run returns
    with outcome Failed; the caption, compose and print stages are not
    invoked and nothing is asked of the composition service; the reset
    is invoked once, and once more when the camera also fails to stop or
    to restart during that first reset. *)
Theorem capture_failure_run (w : World) (g : PoemGenerator) (c : Counters) (e : Exception) :
  fault w Camera (c Camera) = Some e ->
  result_of (run_once w g c) = Ok tt /\
  logged_outcomes (trace_of (run_once w g c)) = [Failed] /\
  stages (trace_of (run_once w g c)) =
    TakePhoto :: ResetHardware ::
      match fault w Camera (S (c Camera)), fault w Camera (S (S (c Camera))) with
      | None, None => []
      | _, _ => [ResetHardware]
      end.
Proof.
  intros Hcap.
  destruct (run_once_observed w g c) as (poem & Hp & Hr & Ho & _ & Hs).
  destruct (process_capture_fails w g c e Hcap) as (Hnone & Hst).
  rewrite Hnone in Hp. injection Hp as <-.
  split; [exact Hr|]. split; [exact Ho|].
  rewrite Hs, Hst. cbn [app]. do 2 f_equal.
  rewrite reset_hardware_raises_iff.
  assert (Hc : counters_of (process_photo_and_generate_poem w g c) Camera = S (c Camera)).
  { unfold process_photo_and_generate_poem, take_photo. run_program. reflexivity. }
  rewrite Hc.
  destruct (fault w Camera (S (c Camera))); [reflexivity|].
  destruct (fault w Camera (S (S (c Camera)))); reflexivity.
Qed.

Lemma capture_failure_run_witness :
  fault capture_fails Camera (fresh Camera) = Some io_error /\
  logged_outcomes (trace_of (run_once capture_fails sample_generator fresh)) = [Failed] /\
  stages (trace_of (run_once capture_fails sample_generator fresh))
    = [TakePhoto; ResetHardware].
Proof.
  split; [reflexivity|].
  pose proof (capture_failure_run capture_fails sample_generator fresh io_error eq_refl)
    as H.
  split; [exact (proj1 (proj2 H)) | exact (proj2 (proj2 H))].
Defined.

(** C7 as stated fails: with a camera that fails every call, the capture
    fails and the run invokes the reset twice. *)
Lemma capture_failure_resets_twice :
  fault broken_camera Camera (fresh Camera) = Some io_error /\
  stages (trace_of (run_once broken_camera sample_generator fresh))
    = [TakePhoto; ResetHardware; ResetHardware] /\
  invocations ResetHardware (trace_of (run_once broken_camera sample_generator fresh)) <> 1.
Proof.
  split; [reflexivity|].
  split; [vm_compute; reflexivity|].
  vm_compute. discriminate.
Qed.

(* ================================================================== *)
(** ** Startup *)

Lemma init_needs_credentials (w : World) (c : Counters) :
  environ w "OPENAI_API_KEY" = None \/ environ w "REPLICATE_API_TOKEN" = None ->
  exists e c1 t1,
    PoemGenerator_init w c = (Raise (Exc e), c1, t1) /\
    presses_accepted t1 = 0 /\ stages t1 = [].
Proof.
  unfold PoemGenerator_init, setup_environment, _get_env_var.
  intros [H | H]; run_program;
    try (do 3 eexists; split; [reflexivity | split; reflexivity]).
Qed.

(** C9. When either credential is absent, the constructor raises, [main]
    logs the failure and exits with code 1 without having waited for a
    press or invoked a stage, for any number of presses that would have
    come; and a run never consults the credentials: it behaves the same
    under any other environment. *)
Theorem missing_credential_is_fatal (w : World) (presses : nat) (c : Counters) :
  environ w "OPENAI_API_KEY" = None \/ environ w "REPLICATE_API_TOKEN" = None ->
  (exists e,
     result_of (PoemGenerator_init w c) = Raise (Exc e) /\
     trace_of (main w presses c) =
       trace_of (PoemGenerator_init w c)
         ++ [Log ERROR (lit "Program failed: " ++ exc_msg e)]) /\
  result_of (main w presses c) = Raise (SystemExit 1) /\
  exit_code (result_of (main w presses c)) = Some 1%Z /\
  presses_accepted (trace_of (main w presses c)) = 0 /\
  stages (trace_of (main w presses c)) = [] /\
  (forall env g c', run_once (with_environ env w) g c' = run_once w g c').
Proof.
  intros H.
  destruct (init_needs_credentials w c H) as (e & c1 & t1 & Hinit & Hw & Hs).
  assert (Hmain : main w presses c
                  = (Raise (SystemExit 1), c1,
                     t1 ++ [Log ERROR (lit "Program failed: " ++ exc_msg e)])).
  { unfold main. unfold bind at 1. rewrite Hinit. reflexivity. }
  rewrite Hmain, Hinit. cbn [result_of trace_of fst snd].
  split; [exists e; split; reflexivity|].
  rewrite presses_accepted_app, stages_app, Hw, Hs.
  split; [reflexivity|]. split; [reflexivity|].
  split; [reflexivity|]. split; [reflexivity|].
  intros env g c'. reflexivity.
Qed.

Lemma missing_credential_is_fatal_witness :
  (environ (with_environ (fun _ => None) healthy) "OPENAI_API_KEY" = None \/
   environ (with_environ (fun _ => None) healthy) "REPLICATE_API_TOKEN" = None) /\
  exit_code (result_of (main (with_environ (fun _ => None) healthy) 3 fresh)) = Some 1%Z.
Proof.
  split; [left; reflexivity|].
  exact (proj1 (proj2 (proj2 (missing_credential_is_fatal
                                (with_environ (fun _ => None) healthy) 3 fresh
                                (or_introl eq_refl))))).
Defined.

(* ================================================================== *)
(** ** The program on sample worlds *)

Example healthy_run_stages :
  stages (trace_of (run_once healthy sample_generator fresh))
    = [TakePhoto; GenerateCaption; GeneratePoem; PrintPoem; ResetHardware].
Proof. vm_compute. reflexivity. Qed.

Example healthy_run_outcome :
  logged_outcomes (trace_of (run_once healthy sample_generator fresh)) = [Succeeded].
Proof. vm_compute. reflexivity. Qed.

Example healthy_run_bytes :
  bytes_sent (trace_of (run_once healthy sample_generator fresh))
    = [x1b; x40; x1b; x61; x01;
       x0a; x6c; x69; x6e; x65; x31; x0a; x6c; x69; x6e; x65; x32; x0a;
       x0a; x0a; x0a; x0a; x1d; x56; x41; x03;
       x1b; x40].
Proof. vm_compute. reflexivity. Qed.

Example print_text_replaces_non_ascii :
  bytes_sent (trace_of (print_text healthy ThermalPrinter_init
                          [99; 97; 102; 233; 32; 9731]%N fresh))
    = [x1b; x40; x1b; x61; x01; x63; x61; x66; x3f; x20; x3f;
       x0a; x0a; x0a; x0a; x1d; x56; x41; x03].
Proof. vm_compute. reflexivity. Qed.

Example print_text_printer_down :
  print_text printer_down ThermalPrinter_init (lit "hello") fresh
    = (Raise (Exc io_error), bump Printer fresh,
       [Fault Printer io_error;
        Log ERROR (lit "Printer error: [Errno 5] Input/output error")]).
Proof. reflexivity. Qed.

Example printer_down_run :
  stages (trace_of (run_once printer_down sample_generator fresh))
    = [TakePhoto; GenerateCaption; GeneratePoem; PrintPoem; ResetHardware] /\
  logged_outcomes (trace_of (run_once printer_down sample_generator fresh)) = [Failed] /\
  result_of (run_once printer_down sample_generator fresh) = Ok tt.
Proof. vm_compute. repeat split. Qed.

Example empty_credential_is_missing :
  exit_code (result_of (main (with_environ (fun _ => Some []) healthy) 1 fresh))
    = Some 1%Z.
Proof. vm_compute. reflexivity. Qed.

Example interrupt_exits_zero :
  exit_code (result_of (main (interrupted_at 2 healthy) 5 fresh)) = Some 0%Z /\
  presses_accepted (trace_of (main (interrupted_at 2 healthy) 5 fresh)) = 1 /\
  logged_outcomes (trace_of (main (interrupted_at 2 healthy) 5 fresh)) = [Succeeded].
Proof. vm_compute. repeat split. Qed.

(* ================================================================== *)
(** ** The pipeline, stage by stage *)

(** X1. The pipeline returns the text that the composition service
    answered exactly when no collaborator call raised during it; as soon
    as one raised it returns [None], and the last line it logs is
    "Process failed: " followed by the message of the last failure. *)
Theorem pipeline_returns_poem_unless_fault (w : World) (g : PoemGenerator) (c : Counters) :
  match all_faults (trace_of (process_photo_and_generate_poem w g c)) with
  | [] =>
      result_of (process_photo_and_generate_poem w g c)
        = Ok (content_of w (c CompositionService))
  | e :: rest =>
      result_of (process_photo_and_generate_poem w g c) = Ok None /\
      List.last (trace_of (process_photo_and_generate_poem w g c)) (Sleep 0)
        = Log ERROR (lit "Process failed: " ++ exc_msg (List.last rest e))
  end.
Proof.
  unfold_pipeline. run_all; try reflexivity; split; reflexivity.
Qed.

(** X2. When the photo is taken and the caption service then raises,
    the run invokes neither the compose nor the print stage, asks
    nothing of the composition service, sends the printer nothing but
    the reset of the hardware reset, and logs the outcome Failed. *)
Theorem caption_failure_run (w : World) (g : PoemGenerator) (c : Counters) (e : Exception) :
  fault w Camera (c Camera) = None ->
  fault w Storage (c Storage) = None ->
  fault w CaptionService (c CaptionService) = Some e ->
  result_of (process_photo_and_generate_poem w g c) = Ok None /\
  stages (trace_of (process_photo_and_generate_poem w g c))
    = [TakePhoto; GenerateCaption] /\
  completions (trace_of (process_photo_and_generate_poem w g c)) = [] /\
  bytes_sent (trace_of (process_photo_and_generate_poem w g c)) = [] /\
  logged_outcomes (trace_of (run_once w g c)) = [Failed] /\
  invocations GeneratePoem (trace_of (run_once w g c)) = 0 /\
  invocations PrintPoem (trace_of (run_once w g c)) = 0.
Proof.
  intros Hcam Hsto Hcap.
  assert (Hp : result_of (process_photo_and_generate_poem w g c) = Ok None /\
               stages (trace_of (process_photo_and_generate_poem w g c))
                 = [TakePhoto; GenerateCaption] /\
               completions (trace_of (process_photo_and_generate_poem w g c)) = [] /\
               bytes_sent (trace_of (process_photo_and_generate_poem w g c)) = []).
  { unfold_pipeline. run_all. repeat split. }
  destruct Hp as (Hr & Hs & Hc & Hb).
  destruct (run_once_observed w g c) as (poem & Hpoem & _ & Ho & _ & Hst).
  rewrite Hr in Hpoem. injection Hpoem as <-.
  repeat (split; [assumption|]).
  unfold invocations. rewrite Hst, Hs.
  destruct (result_of (reset_hardware w g _)); split; reflexivity.
Qed.

Lemma caption_failure_run_witness :
  fault caption_service_down Camera (fresh Camera) = None /\
  fault caption_service_down Storage (fresh Storage) = None /\
  fault caption_service_down CaptionService (fresh CaptionService) = Some io_error /\
  stages (trace_of (process_photo_and_generate_poem caption_service_down
                      sample_generator fresh)) = [TakePhoto; GenerateCaption].
Proof.
  split; [reflexivity|]. split; [reflexivity|]. split; [reflexivity|].
  exact (proj1 (proj2 (caption_failure_run caption_service_down sample_generator fresh
                         io_error eq_refl eq_refl eq_refl))).
Defined.

(** X3. When photo and caption succeed and the composition service
    raises, the pipeline logs "Failed to generate poem: " with the
    cause, does not invoke the print stage and writes nothing to the
    printer, and the run logs the outcome Failed. *)
Theorem composition_failure_run (w : World) (g : PoemGenerator) (c : Counters) (e : Exception) :
  fault w Camera (c Camera) = None ->
  fault w Storage (c Storage) = None ->
  fault w CaptionService (c CaptionService) = None ->
  fault w CompositionService (c CompositionService) = Some e ->
  result_of (process_photo_and_generate_poem w g c) = Ok None /\
  stages (trace_of (process_photo_and_generate_poem w g c))
    = [TakePhoto; GenerateCaption; GeneratePoem] /\
  bytes_sent (trace_of (process_photo_and_generate_poem w g c)) = [] /\
  In (Log ERROR (lit "Failed to generate poem: " ++ exc_msg e))
     (trace_of (process_photo_and_generate_poem w g c)) /\
  logged_outcomes (trace_of (run_once w g c)) = [Failed] /\
  invocations PrintPoem (trace_of (run_once w g c)) = 0.
Proof.
  intros Hcam Hsto Hcap Hcomp.
  assert (Hp : result_of (process_photo_and_generate_poem w g c) = Ok None /\
               stages (trace_of (process_photo_and_generate_poem w g c))
                 = [TakePhoto; GenerateCaption; GeneratePoem] /\
               bytes_sent (trace_of (process_photo_and_generate_poem w g c)) = [] /\
               In (Log ERROR (lit "Failed to generate poem: " ++ exc_msg e))
                  (trace_of (process_photo_and_generate_poem w g c))).
  { unfold_pipeline. run_all. repeat split.
    cbn [In]. repeat first [left; reflexivity | right]. }
  destruct Hp as (Hr & Hs & Hb & Hl).
  destruct (run_once_observed w g c) as (poem & Hpoem & _ & Ho & _ & Hst).
  rewrite Hr in Hpoem. injection Hpoem as <-.
  repeat (split; [assumption|]).
  unfold invocations. rewrite Hst, Hs.
  destruct (result_of (reset_hardware w g _)); reflexivity.
Qed.

Lemma composition_failure_run_witness :
  fault composition_service_down Camera (fresh Camera) = None /\
  fault composition_service_down Storage (fresh Storage) = None /\
  fault composition_service_down CaptionService (fresh CaptionService) = None /\
  fault composition_service_down CompositionService
        (bump CompositionService fresh CompositionService) = Some io_error /\
  stages (trace_of (process_photo_and_generate_poem composition_service_down
                      sample_generator (bump CompositionService fresh)))
    = [TakePhoto; GenerateCaption; GeneratePoem].
Proof.
  split; [reflexivity|]. split; [reflexivity|]. split; [reflexivity|].
  split; [reflexivity|].
  exact (proj1 (proj2 (composition_failure_run composition_service_down sample_generator
                         (bump CompositionService fresh) io_error
                         eq_refl eq_refl eq_refl eq_refl))).
Defined.

(** A pipeline in which no call raised: its result and its trace. *)
Lemma process_without_fault (w : World) (g : PoemGenerator) (c : Counters) :
  all_faults (trace_of (process_photo_and_generate_poem w g c)) = [] ->
  result_of (process_photo_and_generate_poem w g c)
    = Ok (content_of w (c CompositionService)) /\
  trace_of (process_photo_and_generate_poem w g c) =
    [ Enter TakePhoto;
      CaptureFile (photo_path_at w g (c Clock));
      Log INFO (lit "Photo captured and saved to " ++ photo_path_at w g (c Clock));
      Enter GenerateCaption;
      OpenRead (photo_path_at w g (c Clock));
      ReplicateRun (photo_path_at w g (c Clock));
      Log INFO (lit "Generated caption: " ++ caption_of w (c CaptionService));
      Enter GeneratePoem;
      ChatCompletion (system_prompt g)
                     (generate_prompt g (caption_of w (c CaptionService)));
      Log INFO (lit "Poem generated successfully");
      Enter PrintPoem;
      Open (port (printer g));
      Write [x1b; x40];
      Write [x1b; x61; x01];
      Write (encode_ascii_replace
               (NL ++ format (content_of w (c CompositionService)) ++ NL));
      Write [x0a; x0a; x0a; x0a];
      Write [x1d; x56; x41; x03];
      Close;
      Log INFO (lit "Poem printed successfully") ].
Proof.
  unfold_pipeline. unfold photo_path_at.
  run_all; intros H; try discriminate H; split; reflexivity.
Qed.


(** X4. In a pipeline without failure the data flows from stage to
    stage: the camera is asked for the timestamped path under the image
    directory, the caption service gets that same file, the composition
    service gets the persona and the prompt composed from the caption
    that came back, and the printer gets the framed encoding of the
    answer wrapped in newlines; the events occur in exactly this order. *)
Theorem pipeline_dataflow (w : World) (g : PoemGenerator) (c : Counters) :
  all_faults (trace_of (process_photo_and_generate_poem w g c)) = [] ->
  trace_of (process_photo_and_generate_poem w g c) =
    [ Enter TakePhoto;
      CaptureFile (photo_path_at w g (c Clock));
      Log INFO (lit "Photo captured and saved to " ++ photo_path_at w g (c Clock));
      Enter GenerateCaption;
      OpenRead (photo_path_at w g (c Clock));
      ReplicateRun (photo_path_at w g (c Clock));
      Log INFO (lit "Generated caption: " ++ caption_of w (c CaptionService));
      Enter GeneratePoem;
      ChatCompletion (system_prompt g)
                     (generate_prompt g (caption_of w (c CaptionService)));
      Log INFO (lit "Poem generated successfully");
      Enter PrintPoem;
      Open (port (printer g));
      Write [x1b; x40];
      Write [x1b; x61; x01];
      Write (encode_ascii_replace
               (NL ++ format (content_of w (c CompositionService)) ++ NL));
      Write [x0a; x0a; x0a; x0a];
      Write [x1d; x56; x41; x03];
      Close;
      Log INFO (lit "Poem printed successfully") ].
Proof.
  intros H. exact (proj2 (process_without_fault w g c H)).
Qed.

Lemma pipeline_dataflow_witness :
  all_faults (trace_of (process_photo_and_generate_poem healthy sample_generator fresh)) = [] /\
  completions (trace_of (process_photo_and_generate_poem healthy sample_generator fresh))
    = [(system_prompt sample_generator,
        generate_prompt sample_generator (caption_of healthy 0))].
Proof.
  split; [reflexivity|].
  rewrite (pipeline_dataflow healthy sample_generator fresh eq_refl).
  reflexivity.
Defined.

(** X5. The run's outcome is decided by the truth value of the returned
    text, not by the stages: when every stage succeeds but the
    composition service answers with the empty string or with no content
    at all, the answer is printed all the same (an absent content as the
    word None between two newlines) and the run logs the outcome
    Failed. *)
Theorem falsy_poem_printed_but_failed (w : World) (g : PoemGenerator) (c : Counters) :
  all_faults (trace_of (process_photo_and_generate_poem w g c)) = [] ->
  truthy (content_of w (c CompositionService)) = false ->
  bytes_sent (trace_of (process_photo_and_generate_poem w g c))
    = printed (NL ++ format (content_of w (c CompositionService)) ++ NL) /\
  logged_outcomes (trace_of (run_once w g c)) = [Failed] /\
  printed (NL ++ format None ++ NL)
    = [x1b; x40; x1b; x61; x01; x0a; x4e; x6f; x6e; x65; x0a;
       x0a; x0a; x0a; x0a; x1d; x56; x41; x03] /\
  printed (NL ++ format (Some []) ++ NL)
    = [x1b; x40; x1b; x61; x01; x0a; x0a;
       x0a; x0a; x0a; x0a; x1d; x56; x41; x03].
Proof.
  intros Hok Hfalsy.
  destruct (run_once_observed w g c) as (poem & Hpoem & _ & Ho & _ & _).
  destruct (process_without_fault w g c Hok) as [Hres Htrace].
  rewrite Hres in Hpoem. injection Hpoem as <-.
  split; [|split; [|split; reflexivity]].
  - rewrite Htrace. reflexivity.
  - rewrite Ho. unfold run_outcome. now rewrite Hfalsy.
Qed.

Lemma falsy_poem_printed_but_failed_witness :
  all_faults (trace_of (process_photo_and_generate_poem no_content sample_generator fresh)) = [] /\
  truthy (content_of no_content (fresh CompositionService)) = false /\
  logged_outcomes (trace_of (run_once no_content sample_generator fresh)) = [Failed].
Proof.
  split; [reflexivity|]. split; [reflexivity|].
  exact (proj1 (proj2 (falsy_poem_printed_but_failed no_content sample_generator fresh
                         eq_refl eq_refl))).
Defined.

(* ================================================================== *)
(** ** Startup and shutdown *)

Lemma init_result (w : World) (c : Counters) :
  (exists g, result_of (PoemGenerator_init w c) = Ok g) \/
  (exists e, result_of (PoemGenerator_init w c) = Raise (Exc e)).
Proof.
  unfold PoemGenerator_init, setup_environment, initialize_hardware, _get_env_var.
  run_all; solve [left; eexists; reflexivity | right; eexists; reflexivity].
Qed.

(** X6. With both credentials set to non-empty values and a working
    dotenv, OpenAI client, image directory, camera and button, the
    constructor returns a generator holding those credentials, the image
    directory /home/pi/images, a printer on /dev/usb/lp0 at 9600 baud
    and the three prompt texts; it does so by loading the dotenv file,
    building the client, creating the directory, building and starting
    the camera, pausing two seconds and building the button on pin 16,
    in this order. *)
Theorem constructor_builds_generator (w : World) (c : Counters) (key token : str) :
  environ w "OPENAI_API_KEY" = Some key -> key <> [] ->
  environ w "REPLICATE_API_TOKEN" = Some token -> token <> [] ->
  fault w DotEnv (c DotEnv) = None ->
  fault w CompositionService (c CompositionService) = None ->
  fault w Storage (c Storage) = None ->
  fault w Camera (c Camera) = None ->
  fault w Camera (S (c Camera)) = None ->
  fault w Trigger (c Trigger) = None ->
  result_of (PoemGenerator_init w c) =
    Ok {| openai_api_key := key;
          replicate_token := token;
          image_dir := lit "/home/pi/images";
          printer := {| port := lit "/dev/usb/lp0"; baudrate := 9600%N |};
          system_prompt := p_system_prompt setup_prompts;
          prompt_base := p_prompt_base setup_prompts;
          poem_format := p_poem_format setup_prompts |} /\
  trace_of (PoemGenerator_init w c) =
    [ LoadDotenv; NewOpenAI key; Mkdir (lit "/home/pi/images");
      NewPicamera2; CameraStart; Sleep 2; NewButton 16;
      Log INFO (lit "Hardware initialization successful") ].
Proof.
  intros Hkey Hk Htok Ht Hd Hc Hs Hcam0 Hcam1 Hb.
  destruct key as [|k0 key]; [contradiction|].
  destruct token as [|t0 token]; [contradiction|].
  unfold PoemGenerator_init, setup_environment, initialize_hardware, _get_env_var.
  run_all. split; reflexivity.
Qed.

Lemma constructor_builds_generator_witness :
  environ healthy "OPENAI_API_KEY" = Some (lit "sk-test") /\
  lit "sk-test" <> [] /\
  environ healthy "REPLICATE_API_TOKEN" = Some (lit "r8-test") /\
  lit "r8-test" <> [] /\
  result_of (PoemGenerator_init healthy fresh) = Ok sample_generator.
Proof.
  split; [reflexivity|]. split; [discriminate|].
  split; [reflexivity|]. split; [discriminate|].
  exact (proj1 (constructor_builds_generator healthy fresh (lit "sk-test") (lit "r8-test")
                  eq_refl ltac:(discriminate) eq_refl ltac:(discriminate)
                  eq_refl eq_refl eq_refl eq_refl eq_refl eq_refl)).
Defined.

(** X7. Whatever makes the constructor raise (a credential, the dotenv
    file, the client, the directory, the camera or the button), [main]
    logs "Program failed: " with the cause and leaves through
    [sys.exit(1)]; nothing of the loop has happened, however many
    presses would have come. *)
Theorem startup_failure_is_fatal (w : World) (presses : nat) (c : Counters) (e : Exception) :
  result_of (PoemGenerator_init w c) = Raise (Exc e) ->
  result_of (main w presses c) = Raise (SystemExit 1) /\
  exit_code (result_of (main w presses c)) = Some 1%Z /\
  trace_of (main w presses c) =
    trace_of (PoemGenerator_init w c)
      ++ [Log ERROR (lit "Program failed: " ++ exc_msg e)].
Proof.
  intros H.
  destruct (PoemGenerator_init w c) as [[r c1] t1] eqn:Hinit.
  cbn [result_of fst] in H. subst r.
  assert (Hmain : main w presses c
                  = (Raise (SystemExit 1), c1,
                     t1 ++ [Log ERROR (lit "Program failed: " ++ exc_msg e)])).
  { unfold main. unfold bind at 1. rewrite Hinit. reflexivity. }
  rewrite Hmain. split; [reflexivity|]. split; reflexivity.
Qed.

Lemma startup_failure_is_fatal_witness :
  result_of (PoemGenerator_init broken_camera fresh) = Raise (Exc io_error) /\
  exit_code (result_of (main broken_camera 4 fresh)) = Some 1%Z.
Proof.
  split; [reflexivity|].
  exact (proj1 (proj2 (startup_failure_is_fatal broken_camera 4 fresh io_error eq_refl))).
Defined.

(** X8. An OpenAI key that is absent or empty makes the constructor
    raise a ValueError naming OPENAI_API_KEY, whatever the other
    credential is; by then only the dotenv file has been loaded: no
    client, directory, camera or button has been touched, and the one
    line logged is "Environment setup failed: " with that message. *)
Theorem missing_api_key_reported (w : World) (c : Counters) :
  truthy (environ w "OPENAI_API_KEY") = false ->
  fault w DotEnv (c DotEnv) = None ->
  PoemGenerator_init w c =
    (Raise (Exc {| exc_class := "ValueError";
                   exc_msg := lit "Missing environment variable: "
                                ++ lit "OPENAI_API_KEY" |}),
     bump DotEnv c,
     [ LoadDotenv;
       Log ERROR (lit "Environment setup failed: "
                    ++ lit "Missing environment variable: " ++ lit "OPENAI_API_KEY") ]).
Proof.
  intros Hkey Hd.
  unfold PoemGenerator_init, setup_environment, _get_env_var.
  run_all; try discriminate Hkey; reflexivity.
Qed.

Lemma missing_api_key_reported_witness :
  truthy (environ (with_environ (fun _ => Some []) healthy) "OPENAI_API_KEY") = false /\
  fault (with_environ (fun _ => Some []) healthy) DotEnv (fresh DotEnv) = None /\
  trace_of (PoemGenerator_init (with_environ (fun _ => Some []) healthy) fresh) =
    [ LoadDotenv;
      Log ERROR (lit "Environment setup failed: "
                   ++ lit "Missing environment variable: " ++ lit "OPENAI_API_KEY") ].
Proof.
  split; [reflexivity|]. split; [reflexivity|].
  rewrite (missing_api_key_reported (with_environ (fun _ => Some []) healthy) fresh
             eq_refl eq_refl).
  reflexivity.
Defined.

(** The loop ends only by the operator's interrupt or by a failure of
    the button; no run ends it. *)
Lemma serve_result (w : World) (g : PoemGenerator) (n : nat) (c : Counters) :
  result_of (serve w n g c) = Ok StillWaiting \/
  result_of (serve w n g c) = Raise KeyboardInterrupt \/
  exists e, result_of (serve w n g c) = Raise (Exc e) /\
            exists t, trace_of (serve w n g c) = t ++ [Fault Trigger e].
Proof.
  revert c. induction n as [|n IH]; intros c.
  - left. reflexivity.
  - cbn [serve]. unfold_monad.
    destruct (interrupt w (c Trigger)); [right; left; reflexivity|].
    destruct (fault w Trigger (c Trigger)) as [e|].
    + right. right. exists e. split; [reflexivity|].
      cbn [fst snd app]. exists [Log INFO (lit "Waiting for button press...")].
      reflexivity.
    + destruct (run_once_observed w g (bump Trigger c)) as (poem & _ & Hr & _).
      destruct (run_once w g (bump Trigger c)) as [[r1 c1] t1].
      cbn [result_of fst] in Hr. subst r1.
      specialize (IH c1).
      destruct (serve w n g c1) as [[r2 c2] t2].
      cbn [result_of trace_of fst snd] in IH |- *.
      destruct IH as [-> | [-> | (e & -> & t & ->)]].
      * left. reflexivity.
      * right. left. reflexivity.
      * right. right. exists e. split; [reflexivity|].
        cbn [app].
        match goal with
        | |- exists t', ?a :: ?b :: ?d :: t1 ++ t ++ ?f = _ =>
            exists (a :: b :: d :: t1 ++ t)
        end.
        cbn [app]. rewrite app_assoc. reflexivity.
Qed.

(** X9. [main] ends in one of three ways only: it is still in its loop,
    it has returned after the operator's interrupt (exit code 0), or it
    has left through [sys.exit(1)]; no other exception leaves it,
    whatever the collaborators do. *)
Theorem main_exit_status (w : World) (presses : nat) (c : Counters) :
  result_of (main w presses c) = Ok StillWaiting \/
  result_of (main w presses c) = Ok Returned \/
  result_of (main w presses c) = Raise (SystemExit 1).
Proof.
  remember (main w presses c) as x eqn:Hx.
  unfold main in Hx. unfold bind at 1 in Hx.
  destruct (init_result w c) as [[g Hg] | [e He]];
    destruct (PoemGenerator_init w c) as [[r c1] t1];
    cbn [result_of fst] in *; subst r.
  - revert Hx. unfold_monad.
    destruct (serve_result w g presses c1) as [H | [H | (e & H & _)]];
      destruct (serve w presses g c1) as [[r2 c2] t2];
      cbn [result_of fst] in H; subst r2; cbn [fst snd]; intros ->.
    + left. reflexivity.
    + right. left. destruct (fault w Camera (c2 Camera)); reflexivity.
    + right. right. reflexivity.
  - subst x. right. right. reflexivity.
Qed.

(** X10. When the operator interrupts the first wait, [main] logs
    "Program terminated by user", asks the camera to stop and returns
    with exit code 0; a camera that fails to stop is ignored. *)
Theorem interrupt_exits_cleanly
    (w : World) (presses : nat) (c c1 : Counters) (g : PoemGenerator) (t1 : Trace) :
  PoemGenerator_init w c = (Ok g, c1, t1) ->
  interrupt w (c1 Trigger) = true ->
  result_of (main w (S presses) c) = Ok Returned /\
  exit_code (result_of (main w (S presses) c)) = Some 0%Z /\
  trace_of (main w (S presses) c) =
    t1 ++ [ Log INFO (lit "Press the button to take a photo and generate a poem...");
            Log INFO (lit "Waiting for button press...");
            Log INFO (lit "Program terminated by user");
            match fault w Camera (c1 Camera) with
            | None => CameraStop
            | Some e => Fault Camera e
            end ].
Proof.
  intros Hinit Hint.
  remember (main w (S presses) c) as x eqn:Hx.
  unfold main in Hx. unfold bind at 1 in Hx. rewrite Hinit in Hx.
  cbn [serve] in Hx. revert Hx. unfold_monad. rewrite Hint.
  cbn [bump Device_eqb fst snd app].
  destruct (fault w Camera (c1 Camera)); intros ->;
    (split; [reflexivity|]; split; [reflexivity|];
     cbn [trace_of snd app]; rewrite <- app_assoc; reflexivity).
Qed.

Lemma interrupt_exits_cleanly_witness :
  interrupt (interrupted_at 1 healthy)
            (counters_of (PoemGenerator_init (interrupted_at 1 healthy) fresh) Trigger) = true /\
  exit_code (result_of (main (interrupted_at 1 healthy) 3 fresh)) = Some 0%Z.
Proof.
  split; [reflexivity|].
  exact (proj1 (proj2 (interrupt_exits_cleanly (interrupted_at 1 healthy) 2 fresh
                         (counters_of (PoemGenerator_init (interrupted_at 1 healthy) fresh))
                         sample_generator
                         (trace_of (PoemGenerator_init (interrupted_at 1 healthy) fresh))
                         eq_refl eq_refl))).
Defined.

(* ================================================================== *)
(** ** Reset, channel and button *)

(** X11. What a hardware reset does in every case: it writes to the
    printer either nothing or exactly the reset sequence 1B 40, and the
    latter only when the camera was stopped and restarted and the
    channel could be opened and written; it leaves the channel closed;
    and it pauses one second after a successful stop and two more after
    a successful restart, so three seconds when the camera restarts,
    one when only the stop worked, none when the stop failed. *)
Theorem reset_hardware_effects (w : World) (g : PoemGenerator) (c : Counters) :
  bytes_sent (trace_of (reset_hardware w g c)) =
    match fault w Camera (c Camera), fault w Camera (S (c Camera)),
          fault w Printer (c Printer), fault w Printer (S (c Printer)) with
    | None, None, None, None => [x1b; x40]
    | _, _, _, _ => []
    end /\
  channel_open false (trace_of (reset_hardware w g c)) = false /\
  slept (trace_of (reset_hardware w g c)) =
    match fault w Camera (c Camera), fault w Camera (S (c Camera)) with
    | Some _, _ => 0
    | None, Some _ => 1
    | None, None => 3
    end.
Proof.
  unfold reset_hardware. run_all; (split; [|split]); reflexivity.
Qed.

Lemma channel_open_app (b : bool) (t1 t2 : Trace) :
  channel_open b (t1 ++ t2) = channel_open (channel_open b t1) t2.
Proof.
  revert b. induction t1 as [|ev t1 IH]; intros b; [reflexivity|].
  destruct ev; simpl; apply IH.
Qed.

Lemma process_closes_channel (w : World) (g : PoemGenerator) (c : Counters) :
  channel_open false (trace_of (process_photo_and_generate_poem w g c)) = false.
Proof. unfold_pipeline. run_all; reflexivity. Qed.

Lemma reset_closes_channel (w : World) (g : PoemGenerator) (c : Counters) :
  channel_open false (trace_of (reset_hardware w g c)) = false.
Proof. unfold reset_hardware. run_all; reflexivity. Qed.

Lemma run_once_closes_channel (w : World) (g : PoemGenerator) (c : Counters) :
  channel_open false (trace_of (run_once w g c)) = false.
Proof.
  destruct (run_once_unfolded w g c) as (poem & _ & _ & Ht).
  rewrite Ht, !channel_open_app, process_closes_channel.
  assert (Hline : channel_open false [outcome_line poem] = false)
    by (unfold outcome_line; destruct (truthy poem); reflexivity).
  rewrite Hline, reset_closes_channel.
  unfold after_first_reset.
  destruct (result_of (reset_hardware w g _)) as [u|[e| |code]]; try reflexivity.
  rewrite !channel_open_app. cbn [channel_open].
  rewrite reset_closes_channel.
  destruct (result_of (reset_hardware w g _)); reflexivity.
Qed.

(** X12. The printer channel is never left open: it is closed after
    every run, and so after any number of presses served by the loop,
    whatever fails on the way. *)
Theorem channel_closed_between_runs (w : World) (g : PoemGenerator) (c : Counters) :
  channel_open false (trace_of (run_once w g c)) = false /\
  forall n c', channel_open false (trace_of (serve w n g c')) = false.
Proof.
  split; [apply run_once_closes_channel|].
  induction n as [|n IH]; intros c'; [reflexivity|].
  cbn [serve]. unfold_monad.
  destruct (interrupt w (c' Trigger)); [reflexivity|].
  destruct (fault w Trigger (c' Trigger)); [reflexivity|].
  destruct (run_once_observed w g (bump Trigger c')) as (poem & _ & Hr & _).
  pose proof (run_once_closes_channel w g (bump Trigger c')) as Hc.
  destruct (run_once w g (bump Trigger c')) as [[r1 c1] t1].
  cbn [result_of trace_of fst snd] in Hr, Hc. subst r1.
  specialize (IH c1).
  destruct (serve w n g c1) as [[r2 c2] t2].
  cbn [trace_of fst snd app] in IH |- *. cbn [channel_open].
  rewrite channel_open_app, Hc. exact IH.
Qed.

Lemma encode_char_7bit (ch : codepoint) : (Byte.to_N (encode_char ch) < 128)%N.
Proof.
  destruct (N.ltb_spec ch 128) as [H | H].
  - now rewrite encode_char_ascii.
  - rewrite encode_char_other by exact H. reflexivity.
Qed.

(** X13. Whatever text it is given, [print_text] puts only 7-bit bytes
    on the channel, and a call that completes has sent one byte per
    character of the text plus the thirteen bytes of the frame. *)
Theorem print_text_stream_is_ascii
    (w : World) (self : ThermalPrinter) (text : str) (c : Counters) :
  Forall (fun b => (Byte.to_N b < 128)%N)
         (bytes_sent (trace_of (print_text w self text c))) /\
  (result_of (print_text w self text c) = Ok tt ->
   List.length (bytes_sent (trace_of (print_text w self text c)))
     = List.length text + 13).
Proof.
  split.
  - destruct (print_text_stream_prefix w self text c) as [rest Hrest].
    assert (Hall : Forall (fun b => (Byte.to_N b < 128)%N)
                     (bytes_sent (trace_of (print_text w self text c)) ++ rest)).
    { rewrite <- Hrest.
      apply Forall_app. split; [repeat constructor|].
      apply Forall_app. split; [repeat constructor|].
      apply Forall_app. split.
      - unfold encode_ascii_replace. apply Forall_forall.
        intros b Hb. apply in_map_iff in Hb as (ch & <- & _).
        apply encode_char_7bit.
      - repeat constructor. }
    now apply Forall_app in Hall.
  - intros Hok. rewrite (print_text_stream w self text c Hok).
    rewrite !List.length_app. unfold encode_ascii_replace.
    rewrite List.length_map. cbn [List.length]. lia.
Qed.

Lemma print_text_stream_is_ascii_witness :
  result_of (print_text healthy ThermalPrinter_init [233; 9731; 65]%N fresh) = Ok tt /\
  List.length (bytes_sent (trace_of (print_text healthy ThermalPrinter_init
                                       [233; 9731; 65]%N fresh))) = 3 + 13.
Proof.
  split; [reflexivity|].
  exact (proj2 (print_text_stream_is_ascii healthy ThermalPrinter_init
                  [233; 9731; 65]%N fresh) eq_refl).
Defined.

(** X14. For the generator that the constructor builds, the composed
    prompt determines the caption: two captions that give the same
    prompt are the same caption, brackets, braces and quotes at their
    ends included. *)
Theorem prompt_determines_caption
    (w : World) (c : Counters) (g : PoemGenerator) (caption1 caption2 : str) :
  result_of (PoemGenerator_init w c) = Ok g ->
  generate_prompt g caption1 = generate_prompt g caption2 ->
  caption1 = caption2.
Proof.
  intros Hinit Heq.
  rewrite (proj1 (generate_prompt_after_init w c g caption1 Hinit)) in Heq.
  rewrite (proj1 (generate_prompt_after_init w c g caption2 Hinit)) in Heq.
  unfold compose_spec in Heq.
  apply app_inv_head in Heq. apply app_inv_head in Heq. apply app_inv_head in Heq.
  rewrite !app_assoc in Heq. apply app_inv_tail in Heq. apply app_inv_tail in Heq.
  exact Heq.
Qed.

Lemma prompt_determines_caption_witness :
  result_of (PoemGenerator_init healthy fresh) = Ok sample_generator /\
  generate_prompt sample_generator (lit "[a cat]") = generate_prompt sample_generator (lit "[a cat]") /\
  lit "[a cat]" = lit "[a cat]".
Proof.
  split; [reflexivity|]. split; [reflexivity|].
  exact (prompt_determines_caption healthy fresh sample_generator
           (lit "[a cat]") (lit "[a cat]") eq_refl eq_refl).
Defined.

Lemma process_leaves_trigger (w : World) (g : PoemGenerator) (c : Counters) :
  counters_of (process_photo_and_generate_poem w g c) Trigger = c Trigger.
Proof. unfold_pipeline. run_all; reflexivity. Qed.

Lemma reset_leaves_trigger (w : World) (g : PoemGenerator) (c : Counters) :
  counters_of (reset_hardware w g c) Trigger = c Trigger.
Proof. unfold reset_hardware. run_all; reflexivity. Qed.

Lemma run_once_leaves_trigger (w : World) (g : PoemGenerator) (c : Counters) :
  counters_of (run_once w g c) Trigger = c Trigger.
Proof.
  pose proof (process_leaves_trigger w g c) as H0.
  destruct (process_returns w g c) as [poem Hp].
  unfold run_once. unfold_monad.
  destruct (process_photo_and_generate_poem w g c) as [[r0 c0] t0].
  cbn [result_of counters_of fst snd] in Hp, H0. subst r0.
  pose proof (reset_leaves_trigger w g c0) as H1.
  pose proof (reset_hardware_result w g c0) as Hr1.
  destruct (truthy poem);
    (destruct (reset_hardware w g c0) as [[r1 c1] t1];
     cbn [result_of counters_of fst snd] in H1, Hr1;
     destruct Hr1 as [-> | [e ->]]; cbn [fst snd];
     [ congruence
     | pose proof (reset_leaves_trigger w g c1) as H2;
       destruct (reset_hardware w g c1) as [[r2 c2] t2];
       cbn [counters_of fst snd] in H2;
       destruct r2; cbn [fst snd]; congruence ]).
Qed.

(** X15. A run never touches the button: the number of calls made on it
    is the same after the run as before, so a press made during a run
    is not consumed by that run.  With a button that neither fails nor
    is interrupted, a loop serving [n] presses has called it exactly [n]
    times. *)
Theorem button_used_only_between_runs (w : World) (g : PoemGenerator) (c : Counters) :
  counters_of (run_once w g c) Trigger = c Trigger /\
  ((forall k, interrupt w k = false) ->
   (forall k, fault w Trigger k = None) ->
   forall n c', counters_of (serve w n g c') Trigger = c' Trigger + n).
Proof.
  split; [apply run_once_leaves_trigger|].
  intros Hi Hf. induction n as [|n IH]; intros c'.
  - cbn. lia.
  - cbn [serve]. unfold_monad. rewrite Hi, Hf.
    pose proof (run_once_leaves_trigger w g (bump Trigger c')) as Ht.
    destruct (run_once_observed w g (bump Trigger c')) as (poem & _ & Hr & _).
    destruct (run_once w g (bump Trigger c')) as [[r1 c1] t1].
    cbn [result_of counters_of fst snd] in Hr, Ht. subst r1.
    specialize (IH c1).
    destruct (serve w n g c1) as [[r2 c2] t2].
    cbn [counters_of fst snd] in IH |- *.
    rewrite IH, Ht. cbn [bump Device_eqb]. lia.
Qed.

Lemma button_used_only_between_runs_witness :
  (forall k, interrupt healthy k = false) /\
  (forall k, fault healthy Trigger k = None) /\
  counters_of (serve healthy 3 sample_generator fresh) Trigger = fresh Trigger + 3.
Proof.
  split; [reflexivity|]. split; [reflexivity|].
  exact (proj2 (button_used_only_between_runs healthy sample_generator fresh)
           (fun _ => eq_refl) (fun _ => eq_refl) 3 fresh).
Defined.

(** X16. A replicate token that is absent or empty is found only after
    the OpenAI client has been built from a valid key: the constructor
    then raises a ValueError naming REPLICATE_API_TOKEN, having loaded
    the dotenv file and built the client and nothing else. *)
Theorem missing_replicate_token_reported (w : World) (c : Counters) (key : str) :
  environ w "OPENAI_API_KEY" = Some key -> key <> [] ->
  truthy (environ w "REPLICATE_API_TOKEN") = false ->
  fault w DotEnv (c DotEnv) = None ->
  fault w CompositionService (c CompositionService) = None ->
  result_of (PoemGenerator_init w c) =
    Raise (Exc {| exc_class := "ValueError";
                  exc_msg := lit "Missing environment variable: "
                               ++ lit "REPLICATE_API_TOKEN" |}) /\
  trace_of (PoemGenerator_init w c) =
    [ LoadDotenv;
      NewOpenAI key;
      Log ERROR (lit "Environment setup failed: "
                   ++ lit "Missing environment variable: " ++ lit "REPLICATE_API_TOKEN") ].
Proof.
  intros Hkey Hk Htok Hd Hc.
  destruct key as [|k0 key]; [contradiction|].
  unfold PoemGenerator_init, setup_environment, _get_env_var.
  run_all; try discriminate Htok; split; reflexivity.
Qed.

Lemma missing_replicate_token_reported_witness :
  environ (with_environ (fun name => if String.eqb name "OPENAI_API_KEY"
                                     then Some (lit "sk-test") else None) healthy)
          "OPENAI_API_KEY" = Some (lit "sk-test") /\
  lit "sk-test" <> [] /\
  trace_of (PoemGenerator_init
              (with_environ (fun name => if String.eqb name "OPENAI_API_KEY"
                                         then Some (lit "sk-test") else None) healthy)
              fresh) =
    [ LoadDotenv;
      NewOpenAI (lit "sk-test");
      Log ERROR (lit "Environment setup failed: "
                   ++ lit "Missing environment variable: " ++ lit "REPLICATE_API_TOKEN") ].
Proof.
  split; [reflexivity|]. split; [discriminate|].
  exact (proj2 (missing_replicate_token_reported
                  (with_environ (fun name => if String.eqb name "OPENAI_API_KEY"
                                             then Some (lit "sk-test") else None) healthy)
                  fresh (lit "sk-test")
                  eq_refl ltac:(discriminate) eq_refl eq_refl eq_refl)).
Defined.

(** X17. A button whose wait raises is fatal: [main] logs "Program
    failed: " with the cause and leaves through [sys.exit(1)] without
    starting a run and without stopping the camera. *)
Theorem button_failure_is_fatal
    (w : World) (presses : nat) (c c1 : Counters) (g : PoemGenerator) (t1 : Trace)
    (e : Exception) :
  PoemGenerator_init w c = (Ok g, c1, t1) ->
  interrupt w (c1 Trigger) = false ->
  fault w Trigger (c1 Trigger) = Some e ->
  result_of (main w (S presses) c) = Raise (SystemExit 1) /\
  exit_code (result_of (main w (S presses) c)) = Some 1%Z /\
  trace_of (main w (S presses) c) =
    t1 ++ [ Log INFO (lit "Press the button to take a photo and generate a poem...");
            Log INFO (lit "Waiting for button press...");
            Fault Trigger e;
            Log ERROR (lit "Program failed: " ++ exc_msg e) ].
Proof.
  intros Hinit Hint Hf.
  remember (main w (S presses) c) as x eqn:Hx.
  unfold main in Hx. unfold bind at 1 in Hx. rewrite Hinit in Hx.
  cbn [serve] in Hx. revert Hx. unfold_monad. rewrite Hint, Hf.
  cbn [bump Device_eqb fst snd app]. intros ->.
  split; [reflexivity|]. split; [reflexivity|].
  cbn [trace_of snd app]. rewrite <- app_assoc. reflexivity.
Qed.

Lemma button_failure_is_fatal_witness :
  interrupt button_broken
            (counters_of (PoemGenerator_init button_broken fresh) Trigger) = false /\
  fault button_broken Trigger
        (counters_of (PoemGenerator_init button_broken fresh) Trigger) = Some io_error /\
  exit_code (result_of (main button_broken 2 fresh)) = Some 1%Z.
Proof.
  split; [reflexivity|]. split; [reflexivity|].
  exact (proj1 (proj2 (button_failure_is_fatal button_broken 1 fresh
                         (counters_of (PoemGenerator_init button_broken fresh))
                         sample_generator
                         (trace_of (PoemGenerator_init button_broken fresh))
                         io_error eq_refl eq_refl eq_refl))).
Defined.
